(** * AnalyticService: the client of the Hastic analytic server

    A shallow embedding of
    [src/panel/graph_panel/services/analytic_service.ts]: the request
    dispatcher [_analyticRequest], the connection alerts and their
    process-wide registry [window.hasticDatasourcesAvailability], the
    availability probe [checkDatasourceAvailability], the data-contract
    checks of [getSegments], [getDetectionSpans] and [updateSegments], and
    the polling generator [getGenerator].

    Asynchronous code is run to completion: a promise is represented by
    the computation that settles it, [await] is the bind of the monad [M],
    and a rejected promise is the abrupt completion [Throw]. *)

From Stdlib Require Import ZArith List String Ascii Bool Lia.
From stdpp Require Import base option list gmap strings pretty.

Local Open Scope string_scope.
Local Open Scope list_scope.
Local Set Warnings "-register-all".

(** ** JavaScript values *)

Module JS.

(** JSON-like values as they travel in requests and responses. Numbers
    are the integers the service handles (statuses, timestamps). *)
Inductive jsval : Type :=
| JUndefined
| JNull
| JBool (b : bool)
| JNum (n : Z)
| JStr (s : string)
| JArr (items : list jsval)
| JObj (fields : list (string * jsval)).

(** A value typed [string] in the source that may still be left
    [undefined] or [null] by the caller. *)
Inductive maybe_string : Type :=
| Undefined
| Null
| Str (s : string).

(** String coercion, as performed by [+], template literals and
    property keys. *)
Definition to_js_string (u : maybe_string) : string :=
  match u with
  | Undefined => "undefined"
  | Null => "null"
  | Str s => s
  end.

Inductive error_kind : Type := KError | KTypeError.

(** Instances of [Error] and [TypeError]. *)
Record js_error : Type := mk_error { err_kind : error_kind; err_message : string }.

(** [error.status] on an [Error] instance: these objects carry no such
    property. *)
Definition error_status (e : js_error) : jsval := JUndefined.

Inductive completion (A : Type) : Type :=
| Normal (a : A)
| Throw (e : js_error).
Arguments Normal {A} a.
Arguments Throw {A} e.

Definition is_throw {A} (c : completion A) : bool :=
  match c with Throw _ => true | Normal _ => false end.

Fixpoint assoc (k : string) (l : list (string * jsval)) : jsval :=
  match l with
  | [] => JUndefined
  | (k', v) :: rest => if String.eqb k k' then v else assoc k rest
  end.

(** Property read [v.k]: a [TypeError] on [undefined] and [null],
    [undefined] for a property that is not there. *)
Definition get_field (v : jsval) (k : string) : completion jsval :=
  match v with
  | JUndefined => Throw (mk_error KTypeError ("Cannot read property '" +:+ k +:+ "' of undefined"))
  | JNull => Throw (mk_error KTypeError ("Cannot read property '" +:+ k +:+ "' of null"))
  | JObj fields => Normal (assoc k fields)
  | _ => Normal JUndefined
  end.

(** [v === undefined] *)
Definition is_undefined (v : jsval) : bool :=
  match v with JUndefined => true | _ => false end.

(** [v.k] does not deliver a value: the read throws or gives
    [undefined]. *)
Definition lacks_field (v : jsval) (k : string) : bool :=
  match get_field v k with
  | Normal w => is_undefined w
  | Throw _ => true
  end.

Definition upper_ascii (c : ascii) : ascii :=
  let n := nat_of_ascii c in
  if (97 <=? n)%nat && (n <=? 122)%nat then ascii_of_nat (n - 32) else c.

Fixpoint toUpperCase (s : string) : string :=
  match s with
  | EmptyString => EmptyString
  | String c rest => String (upper_ascii c) (toUpperCase rest)
  end.

(** [Array.prototype.join] on an array of strings. *)
Fixpoint join (sep : string) (l : list string) : string :=
  match l with
  | [] => ""
  | [x] => x
  | x :: rest => x +:+ sep +:+ join sep rest
  end.

(** The double quote character of the message templates. *)
Definition dquote : string := String (ascii_of_nat 34) EmptyString.

End JS.
Import JS.

(** ** The transport, the globals and the service instance *)

(** The object handed to [$http]: [{ method, url }] plus either [params]
    or [data]. *)
Record requestObject : Type := mk_request {
  req_method : string;
  req_url : string;
  req_params : option jsval;
  req_data : option jsval
}.

(** The rejection value of AngularJS [$http]. *)
Record http_error : Type := mk_http_error {
  status : Z;
  statusText : string;
  xhrStatus : string
}.

Inductive http_outcome : Type :=
| Resolved (data : jsval)          (* [response.data] *)
| Rejected (error : http_error).

(** [$http]: the outcome may depend on how many requests were sent
    before. *)
Definition transport : Type := nat -> requestObject -> http_outcome.

Inductive HasticDatasourceAvailability : Type :=
| AVAILABLE
| NOT_AVAILABLE.

Definition availability_str (a : HasticDatasourceAvailability) : string :=
  match a with
  | AVAILABLE => "success"
  | NOT_AVAILABLE => "error"
  end.

Global Instance availability_eq_dec : EqDecision HasticDatasourceAvailability.
Proof. solve_decision. Defined.

Record HasticDatasourceStatus : Type := mk_status {
  testing : bool;
  availability : HasticDatasourceAvailability;
  message : string
}.

Record AnalyticService : Type := mk_service {
  hasticDatasourceStatus : HasticDatasourceStatus;
  _isUp : bool;
  _hasticDatasourceURL : maybe_string;
  http : transport
}.

Inductive payload : Type :=
| PMessage (lines : list string)
| PUrl (url : maybe_string).

(** One [appEvents.emit(name, payload)]. *)
Record app_event : Type := mk_event { ev_name : string; ev_payload : payload }.

(** What lives outside the instances: [window], the event bus, the
    console, the requests sent so far and the timer clock. Newest entries
    of the logs come first. *)
Record World : Type := mk_world {
  hasticDatasourcesAvailability : option (gmap string HasticDatasourceAvailability);
  window_status : string;
  appEvents : list app_event;
  console : list js_error;
  requests : list requestObject;
  clock : Z
}.

Definition state : Type := AnalyticService * World.

(** ** The monad of methods *)

Definition M (A : Type) : Type := state -> completion A * state.

Definition ret {A} (a : A) : M A := fun st => (Normal a, st).

Definition bind {A B} (m : M A) (f : A -> M B) : M B :=
  fun st =>
    match m st with
    | (Normal a, st') => f a st'
    | (Throw e, st') => (Throw e, st')
    end.

Definition throw {A} (e : js_error) : M A := fun st => (Throw e, st).

(** [try { body } catch(e) { handler e }] around awaited code. *)
Definition try_catch {A} (body : M A) (handler : js_error -> M A) : M A :=
  fun st =>
    match body st with
    | (Normal a, st') => (Normal a, st')
    | (Throw e, st') => handler e st'
    end.

Definition lift {A} (c : completion A) : M A := fun st => (c, st).

Definition get_this : M AnalyticService := fun st => (Normal (fst st), st).
Definition get_world : M World := fun st => (Normal (snd st), st).
Definition modify_this (f : AnalyticService -> AnalyticService) : M unit :=
  fun st => (Normal tt, (f (fst st), snd st)).
Definition modify_world (f : World -> World) : M unit :=
  fun st => (Normal tt, (fst st, f (snd st))).

Declare Scope js_scope.
Delimit Scope js_scope with js.
Notation "'let!' x ':=' c 'in' k" := (bind c (fun x => k))
  (at level 10, x name, c at level 100, k at level 200) : js_scope.
Notation "c ';;' k" := (bind c (fun _ => k))
  (at level 100, k at level 200, right associativity) : js_scope.
Local Open Scope js_scope.

(** Field updates *)

Definition set_isUp (b : bool) (s : AnalyticService) : AnalyticService :=
  mk_service (hasticDatasourceStatus s) b (_hasticDatasourceURL s) (http s).

Definition set_status (f : HasticDatasourceStatus -> HasticDatasourceStatus)
    (s : AnalyticService) : AnalyticService :=
  mk_service (f (hasticDatasourceStatus s)) (_isUp s) (_hasticDatasourceURL s) (http s).

Definition set_testing (b : bool) (h : HasticDatasourceStatus) : HasticDatasourceStatus :=
  mk_status b (availability h) (message h).
Definition set_availability (a : HasticDatasourceAvailability)
    (h : HasticDatasourceStatus) : HasticDatasourceStatus :=
  mk_status (testing h) a (message h).
Definition set_message (m : string) (h : HasticDatasourceStatus) : HasticDatasourceStatus :=
  mk_status (testing h) (availability h) m.

Definition set_registry (r : gmap string HasticDatasourceAvailability) (w : World) : World :=
  mk_world (Some r) (window_status w) (appEvents w) (console w) (requests w) (clock w).
Definition set_window_status (s : string) (w : World) : World :=
  mk_world (hasticDatasourcesAvailability w) s (appEvents w) (console w) (requests w) (clock w).
Definition push_event (e : app_event) (w : World) : World :=
  mk_world (hasticDatasourcesAvailability w) (window_status w) (e :: appEvents w)
           (console w) (requests w) (clock w).
Definition push_console (e : js_error) (w : World) : World :=
  mk_world (hasticDatasourcesAvailability w) (window_status w) (appEvents w)
           (e :: console w) (requests w) (clock w).
Definition push_request (r : requestObject) (w : World) : World :=
  mk_world (hasticDatasourcesAvailability w) (window_status w) (appEvents w)
           (console w) (r :: requests w) (clock w).
Definition advance_clock (d : Z) (w : World) : World :=
  mk_world (hasticDatasourcesAvailability w) (window_status w) (appEvents w)
           (console w) (requests w) (clock w + d)%Z.

(** [appEvents.emit(name, payload)] *)
Definition emit (name : string) (p : payload) : M unit :=
  modify_world (push_event (mk_event name p)).

(** ** Construction *)

(** [constructor(private _hasticDatasourceURL: string, private $http)] *)
Definition new_AnalyticService (url : maybe_string) (h : transport)
    : completion AnalyticService :=
  match url with
  | Undefined => Throw (mk_error KTypeError "_hasticDatasourceURL is undefined")
  | _ => Normal (mk_service (mk_status false NOT_AVAILABLE "") false url h)
  end.

(** ** Connection alerts and the registry of [window] *)

(** Updates hastic datasource status; returns true if status has been
    changed. The registry is taken here as the finite map of its entries.
    The plain object of the source behaves like that map except at two
    keys, [__proto__] and [hasOwnProperty];
    [_updateHasticUrlStatus_plain_object] below follows the object there
    too, and [updateHasticUrlStatus_plain_object_agrees] states where the
    two coincide. *)
Definition _updateHasticUrlStatus (st : HasticDatasourceAvailability) : M bool :=
  let! this := get_this in
  let! w := get_world in
  (match hasticDatasourcesAvailability w with
   | None => modify_world (set_registry ∅)
   | Some _ => ret tt
   end) ;;
  let! w := get_world in
  let key := to_js_string (_hasticDatasourceURL this) in
  let reg := default ∅ (hasticDatasourcesAvailability w) in
  match reg !! key with
  | None =>
      modify_world (set_registry (<[key := st]> reg)) ;;
      ret true
  | Some old =>
      if bool_decide (old ≠ st) then
        emit "hastic-datasource-status-changed" (PUrl (_hasticDatasourceURL this)) ;;
        modify_world (set_registry (<[key := st]> reg)) ;;
        ret true
      else ret false
  end.

Definition _displayConnectionAlert (st : HasticDatasourceAvailability)
    (msg : list string) : M unit :=
  modify_this (set_status (set_availability st)) ;;
  modify_this (set_status (set_message (join "<br /> " msg))) ;;
  let! statusChanged := _updateHasticUrlStatus st in
  if negb statusChanged then ret tt
  else emit ("alert-" +:+ availability_str st) (PMessage msg).

(** *** The registry as the plain object it is

    The map of a registry holds the own properties of the object
    [window.hasticDatasourcesAvailability]. *)

(** [registry.hasOwnProperty(key)]: the method comes from
    [Object.prototype] unless the registry has an own property of that
    name, which is then a string and cannot be called. *)
Definition registry_hasOwnProperty (reg : gmap string HasticDatasourceAvailability)
    (key : string) : completion bool :=
  match reg !! "hasOwnProperty" with
  | Some _ =>
      Throw (mk_error KTypeError
               "window.hasticDatasourcesAvailability.hasOwnProperty is not a function")
  | None => Normal (bool_decide (is_Some (reg !! key)))
  end.

(** [registry[key] = st]: the key [__proto__] reaches the setter of
    [Object.prototype], which ignores a string, so that no own property
    is made. *)
Definition registry_assign (key : string) (st : HasticDatasourceAvailability)
    (reg : gmap string HasticDatasourceAvailability)
    : gmap string HasticDatasourceAvailability :=
  if String.eqb key "__proto__" then reg else <[key := st]> reg.

Definition _updateHasticUrlStatus_plain_object (st : HasticDatasourceAvailability)
    : M bool :=
  let! this := get_this in
  let! w := get_world in
  (match hasticDatasourcesAvailability w with
   | None => modify_world (set_registry ∅)
   | Some _ => ret tt
   end) ;;
  let! w := get_world in
  let key := to_js_string (_hasticDatasourceURL this) in
  let reg := default ∅ (hasticDatasourcesAvailability w) in
  let! own := lift (registry_hasOwnProperty reg key) in
  if negb own then
    modify_world (set_registry (registry_assign key st reg)) ;;
    ret true
  else if bool_decide (reg !! key ≠ Some st) then
    emit "hastic-datasource-status-changed" (PUrl (_hasticDatasourceURL this)) ;;
    modify_world (set_registry (registry_assign key st reg)) ;;
    ret true
  else ret false.

Definition _displayConnectionAlert_plain_object (st : HasticDatasourceAvailability)
    (msg : list string) : M unit :=
  modify_this (set_status (set_availability st)) ;;
  modify_this (set_status (set_message (join "<br /> " msg))) ;;
  let! statusChanged := _updateHasticUrlStatus_plain_object st in
  if negb statusChanged then ret tt
  else emit ("alert-" +:+ availability_str st) (PMessage msg).

Definition url_line (prefix : string) (this : AnalyticService) : string :=
  prefix +:+ dquote +:+ to_js_string (_hasticDatasourceURL this) +:+ dquote.

Definition no_connection_message (statusText' : string) (this : AnalyticService)
    : list string :=
  [ "No connection to Hastic Server. Status: " +:+ statusText';
    url_line "Hastic Datasource URL: " this ].

Definition timeout_message (statusText' : string) (this : AnalyticService)
    : list string :=
  [ "Timeout when connecting to Hastic Server. Status: " +:+ statusText';
    url_line "Hastic Datasource URL: " this ].

Definition _displayNoConnectionAlert (statusText' : string) : M unit :=
  let! this := get_this in
  _displayConnectionAlert NOT_AVAILABLE (no_connection_message statusText' this).

Definition _displayConnectionTimeoutAlert (statusText' : string) : M unit :=
  let! this := get_this in
  _displayConnectionAlert NOT_AVAILABLE (timeout_message statusText' this).

Definition displayWrongUrlAlert : M unit :=
  let! this := get_this in
  _displayConnectionAlert NOT_AVAILABLE
    [ "Please check Hastic Server URL";
      url_line "Something is working at " this +:+ " but it's not Hastic Server" ].

(** ** The request dispatcher *)

(** The test of the [catch] block: [error.xhrStatus !== 'complete' ||
    error.status > 500]. *)
Definition connectivity_failure (error : http_error) : bool :=
  negb (String.eqb (xhrStatus error) "complete") || (500 <? status error)%Z.

(** [error.status === 504 || error.status === -1] *)
Definition timeout_status (error : http_error) : bool :=
  (status error =? 504)%Z || (status error =? -1)%Z.

(** The [requestObject] of a call: [GET] and [DELETE] carry the payload
    as [params], the other verbs as [data]. *)
Definition build_request (this : AnalyticService) (method url : string) (data : jsval)
    : requestObject :=
  let method := toUpperCase method in
  let url := to_js_string (_hasticDatasourceURL this) +:+ url in
  if String.eqb method "GET" || String.eqb method "DELETE"
  then mk_request method url (Some data) None
  else mk_request method url None (Some data).

Definition _analyticRequest (method url : string) (data : jsval) : M jsval :=
  let! this := get_this in
  let request := build_request this method url data in
  let! w := get_world in
  modify_world (push_request request) ;;
  match http this (length (requests w)) request with
  | Resolved d =>
      modify_this (set_isUp true) ;;
      ret d
  | Rejected error =>
      if connectivity_failure error then
        let statusText' := pretty (status error) in
        (* [status += ...]: the name written to is [window.status], not
           the local [statusText] *)
        (if negb (String.eqb (statusText error) "") then
           modify_world (fun w =>
             set_window_status (window_status w +:+ " (" +:+ statusText error +:+ ")") w)
         else ret tt) ;;
        (if timeout_status error
         then _displayConnectionTimeoutAlert statusText'
         else _displayNoConnectionAlert statusText') ;;
        modify_this (set_isUp false) ;;
        throw (mk_error KError ("Fetching error: " +:+ statusText'))
      else
        modify_this (set_isUp true) ;;
        ret JUndefined
  end.

Definition get (url : string) (params : jsval) : M jsval := _analyticRequest "GET" url params.
Definition post (url : string) (data : jsval) : M jsval := _analyticRequest "POST" url data.
Definition patch (url : string) (data : jsval) : M jsval := _analyticRequest "PATCH" url data.
Definition delete (url : string) (data : jsval) : M jsval := _analyticRequest "DELETE" url data.

(** ** Operations with a data contract *)

(** Modelled from the spec: the model class [AnalyticSegment]
    ([models/analytic_units/analytic_unit.ts] is not among the sources),
    as the record of the five values its constructor receives; a
    [SegmentsSet] is given by the array its [getSegments()] returns. *)
Record AnalyticSegment : Type := new_AnalyticSegment {
  seg_labeled : jsval;
  seg_id : jsval;
  seg_from : jsval;
  seg_to : jsval;
  seg_deleted : jsval
}.

Fixpoint mapM {A B} (f : A -> M B) (l : list A) : M (list B) :=
  match l with
  | [] => ret []
  | x :: rest =>
      let! y := f x in
      let! ys := mapM f rest in
      ret (y :: ys)
  end.

Definition updateSegments (id : jsval)
    (addedSegments removedSegments : list AnalyticSegment) : M jsval :=
  let getJSONs (segs : list AnalyticSegment) :=
    map (fun segment => JObj [ ("from", seg_from segment); ("to", seg_to segment);
                               ("labeled", seg_labeled segment);
                               ("deleted", seg_deleted segment) ]) segs in
  let payload := JObj [ ("id", id);
                        ("addedSegments", JArr (getJSONs addedSegments));
                        ("removedSegments", JArr (map seg_id removedSegments)) ] in
  let! data := patch "/segments" payload in
  let! addedIds := lift (get_field data "addedIds") in
  if is_undefined addedIds then throw (mk_error KError "Server didn`t send addedIds")
  else ret addedIds.

Definition getDetectionSpans (id from to : jsval) : M jsval :=
  if is_undefined id then throw (mk_error KError "id is undefined") else
  let payload := JObj [ ("id", id); ("from", from); ("to", to) ] in
  let! data := get "/detections/spans" payload in
  if is_undefined data then throw (mk_error KError "Server didn`t return spans array") else
  let! spans := lift (get_field data "spans") in
  if is_undefined spans then throw (mk_error KError "Server didn`t return spans array")
  else ret spans.

Definition getSegments (id from to : jsval) : M (list AnalyticSegment) :=
  if is_undefined id then throw (mk_error KError "id is undefined") else
  let payload :=
    JObj ([ ("id", id) ]
          ++ (if is_undefined from then [] else [ ("from", from) ])
          ++ (if is_undefined to then [] else [ ("to", to) ])) in
  let! data := get "/segments" payload in
  let! segments := lift (get_field data "segments") in
  if is_undefined segments then throw (mk_error KError "Server didn`t return segments array")
  else
    match segments with
    | JArr items =>
        mapM (fun s =>
                let! labeled := lift (get_field s "labeled") in
                let! sid := lift (get_field s "id") in
                let! sfrom := lift (get_field s "from") in
                let! sto := lift (get_field s "to") in
                let! deleted := lift (get_field s "deleted") in
                ret (new_AnalyticSegment labeled sid sfrom sto deleted)) items
    | _ => throw (mk_error KTypeError "segments.map is not a function")
    end.

(** ** Polling generators *)

(** Where the body of an async generator stands: not started, suspended
    at its [yield], or finished (returned or thrown). *)
Inductive generator_position : Type := GenStart | GenSuspended | GenCompleted.

Record generator (T : Type) : Type := mk_generator {
  gen_id : jsval;
  gen_duration : Z;
  gen_func : jsval -> list jsval -> M T;
  gen_args : list jsval;
  gen_position : generator_position
}.
Arguments mk_generator {T}.
Arguments gen_id {T}.
Arguments gen_duration {T}.
Arguments gen_func {T}.
Arguments gen_args {T}.
Arguments gen_position {T}.

(** [{ value, done: false }] and [{ value: undefined, done: true }] *)
Inductive iterator_result (T : Type) : Type :=
| Yield (value : T)
| Done.
Arguments Yield {T}.
Arguments Done {T}.

Definition move_to {T} (p : generator_position) (g : generator T) : generator T :=
  mk_generator (gen_id g) (gen_duration g) (gen_func g) (gen_args g) p.

(** Calling the generator function runs none of its body. *)
Definition getGenerator {T} (id : jsval) (duration : Z)
    (func : jsval -> list jsval -> M T) (args : list jsval) : generator T :=
  mk_generator id duration func args GenStart.

(** The conversion of a number to the 32-bit signed integer that the
    [timeout] argument of [setTimeout] is. *)
Definition ToInt32 (z : Z) : Z := ((z + 2 ^ 31) mod 2 ^ 32 - 2 ^ 31)%Z.

(** The delay [setTimeout(resolve, duration)] arms: the duration as a
    32-bit signed integer, a negative one counting as zero. *)
Definition setTimeout_delay (duration : Z) : Z := Z.max 0 (ToInt32 duration).

(** [new Promise(resolve => setTimeout(resolve, duration))] *)
Definition timeout (duration : Z) : M unit :=
  modify_world (advance_clock (setTimeout_delay duration)).

(** [yield await func(id, ...args)] *)
Definition yield_await_func {T} (g : generator T) (st : state)
    : completion (iterator_result T) * generator T * state :=
  match gen_func g (gen_id g) (gen_args g) st with
  | (Normal v, st') => (Normal (Yield v), move_to GenSuspended g, st')
  | (Throw e, st') => (Throw e, move_to GenCompleted g, st')
  end.

(** One [next()] on the iterator: the body runs up to its next [yield]. *)
Definition next {T} (g : generator T) (st : state)
    : completion (iterator_result T) * generator T * state :=
  match gen_position g with
  | GenStart =>
      if is_undefined (gen_id g)
      then (Throw (mk_error KError "id is undefined"), move_to GenCompleted g, st)
      else yield_await_func g st
  | GenSuspended =>
      let '(_, st1) := timeout (gen_duration g) st in
      yield_await_func g st1
  | GenCompleted => (Normal Done, g, st)
  end.

(** The outcomes of [n] successive [next()] calls, oldest first. *)
Fixpoint iterate {T} (n : nat) (g : generator T) (st : state)
    : list (completion (iterator_result T)) * generator T * state :=
  match n with
  | O => ([], g, st)
  | S k =>
      let '(r, g1, st1) := next g st in
      let '(rs, g2, st2) := iterate k g1 st1 in
      (r :: rs, g2, st2)
  end.

(** The elements a list of outcomes delivers. *)
Fixpoint elements {T} (rs : list (completion (iterator_result T))) : list T :=
  match rs with
  | [] => []
  | Normal (Yield v) :: rest => v :: elements rest
  | _ :: rest => elements rest
  end.

(** A call of an async method never throws synchronously: it returns
    the promise, which is the computation that settles it. *)
Definition async_call {A} (body : M A) : completion (M A) := Normal body.

(** [v === n] for a number literal [n] *)
Definition strict_eq_num (v : jsval) (n : Z) : bool :=
  match v with JNum m => (m =? n)%Z | _ => false end.

(** The fetch function of the status poll:
    [try { return this.get(...) } catch(error) { ... }]. The promise is
    returned without [await], so the [try] block is left as soon as the
    call has returned it and the [catch] clause only guards a synchronous
    throw of the call. *)
Definition statusFetch (id : jsval) : M jsval :=
  match async_call (get "/analyticUnits/status" (JObj [ ("id", id) ])) with
  | Normal p => p
  | Throw error =>
      if strict_eq_num (error_status error) 404
      then ret (JObj [ ("status", JStr "404") ])
      else throw error
  end.

Definition getStatusGenerator (id : jsval) (duration : Z) : generator jsval :=
  getGenerator id duration (fun id _ => statusFetch id) [].

Definition getDetectionsGenerator (id from to : jsval) (duration : Z) : generator jsval :=
  getGenerator id duration
    (fun id args => getDetectionSpans id (nth 0 args JUndefined) (nth 1 args JUndefined))
    [ from; to ].

(** ** The availability probe *)

(** The string a template literal makes of a value. *)
Fixpoint js_to_string (v : jsval) : string :=
  match v with
  | JUndefined => "undefined"
  | JNull => "null"
  | JBool true => "true"
  | JBool false => "false"
  | JNum n => pretty n
  | JStr s => s
  | JArr items =>
      join "," (map (fun x => match x with
                              | JUndefined | JNull => ""
                              | _ => js_to_string x
                              end) items)
  | JObj _ => "[object Object]"
  end.

Definition url_missing (u : maybe_string) : bool :=
  match u with
  | Null | Undefined => true
  | Str s => String.eqb s ""
  end.

Definition config_missing_message : list string :=
  [ "Hastic Datasource is missing";
    "Please setup Hastic Datasource. More info: https://github.com/hastic/hastic-grafana-app/wiki/Getting-started" ].

Definition _checkDatasourceConfig : M bool :=
  let! this := get_this in
  if url_missing (_hasticDatasourceURL this) then
    emit "alert-warning" (PMessage config_missing_message) ;;
    ret false
  else ret true.

Section Probe.

(** The helpers of [utils] are not among the sources; they are taken as
    they are declared. *)
Variable isHasticServerResponse : jsval -> bool.
Variable isSupportedServerVersion : jsval -> bool.
Variable SUPPORTED_SERVER_VERSION : string.

Definition displayUnsupportedVersionAlert (actual : jsval) : M unit :=
  let! this := get_this in
  _displayConnectionAlert NOT_AVAILABLE
    [ "Unsupported Hastic Server version";
      url_line "Hastic Server at " this +:+ " has unsupported version (got "
        +:+ js_to_string actual +:+ ", should be " +:+ SUPPORTED_SERVER_VERSION +:+ ")" ].

Definition connected_message (this : AnalyticService) : list string :=
  [ "Connected to Hastic Datasource";
    url_line "Hastic datasource URL: " this ].

Definition _isDatasourceAvailable : M bool :=
  let! ok := _checkDatasourceConfig in
  if negb ok then ret false else
  try_catch
    (let! response := get "/" JUndefined in
     if negb (isHasticServerResponse response) then
       displayWrongUrlAlert ;;
       ret false
     else if negb (isSupportedServerVersion response) then
       let! packageVersion := lift (get_field response "packageVersion") in
       displayUnsupportedVersionAlert packageVersion ;;
       ret false
     else
       let! this := get_this in
       _displayConnectionAlert AVAILABLE (connected_message this) ;;
       ret true)
    (fun e =>
       modify_world (push_console e) ;;
       ret false).

Definition checkDatasourceAvailability : M bool :=
  modify_this (set_status (set_testing true)) ;;
  let! up := _isDatasourceAvailable in
  modify_this (set_isUp up) ;;
  modify_this (set_status (set_testing false)) ;;
  let! this := get_this in
  ret (_isUp this).

End Probe.

(** ** Observations on runs *)

(** The registry entry of an endpoint, if the registry and the entry
    exist. *)
Definition recorded (u : maybe_string) (w : World) : option HasticDatasourceAvailability :=
  match hasticDatasourcesAvailability w with
  | None => None
  | Some r => r !! to_js_string u
  end.

(** The events emitted between an earlier world [w] and a later world
    [w'], newest first. *)
Definition emitted (w w' : World) : list app_event :=
  take (length (appEvents w') - length (appEvents w)) (appEvents w').

(** The events the alert renderer shows to the user: [alert-success],
    [alert-error], [alert-warning]. *)
Definition is_user_notification (e : app_event) : bool :=
  String.prefix "alert-" (ev_name e).

Definition notifications (l : list app_event) : list app_event :=
  List.filter is_user_notification l.

Definition notification (st : HasticDatasourceAvailability) (msg : list string) : app_event :=
  mk_event ("alert-" +:+ availability_str st) (PMessage msg).

Definition status_changed_event (u : maybe_string) : app_event :=
  mk_event "hastic-datasource-status-changed" (PUrl u).

(** The instance and the world a computation leaves behind. *)
Definition this_after {A} (r : completion A * state) : AnalyticService := fst (snd r).
Definition world_after {A} (r : completion A * state) : World := snd (snd r).

(** The message of the connectivity alert the dispatcher chooses for a
    transport error. *)
Definition connectivity_message (error : http_error) (this : AnalyticService) : list string :=
  if timeout_status error
  then timeout_message (pretty (status error)) this
  else no_connection_message (pretty (status error)) this.

(** The instance after an alert call: availability and message are
    overwritten. *)
Definition alerted (st : HasticDatasourceAvailability) (msg : list string)
    (this : AnalyticService) : AnalyticService :=
  set_status (set_message (join "<br /> " msg)) (set_status (set_availability st) this).

(** The events of one alert call against a registry, newest first. *)
Definition alert_events (st : HasticDatasourceAvailability) (msg : list string)
    (u : maybe_string) (w : World) : list app_event :=
  match recorded u w with
  | None => [notification st msg]
  | Some old =>
      if bool_decide (old = st) then []
      else [notification st msg; status_changed_event u]
  end.

(** ** Sample instances, worlds and transports *)

Definition example_url : maybe_string := Str "http://localhost:8000".

(** A world in which nothing happened yet: [window] has no registry. *)
Definition fresh_world : World := mk_world None "" [] [] [] 0.

(** A world whose registry already records the endpoint as down. *)
Definition world_known_down : World :=
  mk_world (Some {[ "http://localhost:8000" := NOT_AVAILABLE ]}) "" [] [] [] 0.

Definition failing_transport (error : http_error) : transport :=
  fun _ _ => Rejected error.

Definition answering_transport (d : jsval) : transport :=
  fun _ _ => Resolved d.

Definition service_at (u : maybe_string) (h : transport) : AnalyticService :=
  mk_service (mk_status false NOT_AVAILABLE "") false u h.

Definition abort_error : http_error := mk_http_error (-1) "" "abort".
Definition gateway_timeout_error : http_error := mk_http_error 504 "Gateway Timeout" "complete".
Definition bad_gateway_error : http_error := mk_http_error 502 "Bad Gateway" "complete".
Definition broken_internal_error : http_error := mk_http_error 500 "" "error".
Definition not_found_error : http_error := mk_http_error 404 "Not Found" "complete".

(** The server check only recognises objects: reading the
    [packageVersion] of a recognised response does not throw. *)
Definition recognised_is_object (isHasticServerResponse : jsval -> bool) : Prop :=
  forall v, isHasticServerResponse v = true ->
            is_throw (get_field v "packageVersion") = false.

(** Sample helpers of [utils]: a response is recognised when it is an
    object with a [server] field, and supported when its
    [packageVersion] is the expected one. *)
Definition sample_isHasticServerResponse (v : jsval) : bool :=
  match v with
  | JObj fields => negb (is_undefined (assoc "server" fields))
  | _ => false
  end.

Definition sample_isSupportedServerVersion (v : jsval) : bool :=
  match get_field v "packageVersion" with
  | Normal (JStr s) => String.eqb s "0.3.6"
  | _ => false
  end.

(** A fetch function that leaves a mark on the event bus each time it
    is invoked, before doing what [func] does. *)
Definition marking {T} (func : jsval -> list jsval -> M T)
    : jsval -> list jsval -> M T :=
  fun id args =>
    emit "fetch-invoked" (PMessage []) ;;
    func id args.

(** The sentinel of the status poll. *)
Definition status_404 : jsval := JObj [ ("status", JStr "404") ].

(** ** Unit and panel operations *)

(** Modelled from the spec: the model classes [AnalyticUnit] and
    [MetricExpanded] ([models/] is not among the sources), each given by
    what the service reads of an instance: the object its [toJSON()]
    returns, and for a unit its [id] and [alert]. *)
Record AnalyticUnit : Type := mk_unit {
  unit_id : jsval;
  unit_alert : jsval;
  unit_toJSON : list (string * jsval)
}.

Record MetricExpanded : Type := mk_metric { metric_toJSON : jsval }.

(** Property write on an object: an existing key keeps its place. *)
Fixpoint set_field (k : string) (v : jsval) (fields : list (string * jsval))
    : list (string * jsval) :=
  match fields with
  | [] => [ (k, v) ]
  | (k', v') :: rest =>
      if String.eqb k k' then (k, v) :: rest else (k', v') :: set_field k v rest
  end.

(** [{ ...base, ...extra }] *)
Definition spread (base extra : list (string * jsval)) : list (string * jsval) :=
  fold_left (fun acc kv => set_field (fst kv) (snd kv) acc) extra base.

(** [_.isArray] *)
Definition isArray (v : jsval) : bool :=
  match v with JArr _ => true | _ => false end.

Definition getAnalyticUnitTypes : M jsval :=
  let! resp := get "/analyticUnits/types" JUndefined in
  if is_undefined resp then ret (JObj [])
  else ret resp.

Definition getAnalyticUnits (panelId : jsval) : M jsval :=
  let! resp := get "/analyticUnits/units" (JObj [ ("panelId", panelId) ]) in
  if is_undefined resp then ret (JArr [])
  else lift (get_field resp "analyticUnits").

Definition exportPanel (panelId : jsval) : M jsval :=
  let! resp := get "/panels/template" (JObj [ ("panelId", panelId) ]) in
  if is_undefined resp then ret (JObj [])
  else ret resp.


Definition postNewAnalyticUnit (analyticUnit : AnalyticUnit) (metric : MetricExpanded)
    (datasource grafanaUrl panelId : jsval) : M jsval :=
  let analyticUnitJson := unit_toJSON analyticUnit in
  let! response :=
    post "/analyticUnits"
      (JObj (spread [ ("grafanaUrl", grafanaUrl); ("panelId", panelId);
                      ("metric", metric_toJSON metric); ("datasource", datasource) ]
                    analyticUnitJson)) in
  lift (get_field response "id").



(** The object [getServerInfo] builds. *)
Record HasticServerInfo : Type := mk_info {
  nodeVersion : jsval;
  packageVersion : jsval;
  npmUserAgent : jsval;
  docker : jsval;
  zmqConectionString : jsval;
  serverPort : jsval;
  gitBranch : jsval;
  gitCommitHash : jsval
}.

Section ServerInfo.

(** The constant of [models/hastic_server_info], not among the
    sources. *)
Variable HasticServerInfoUnknown : HasticServerInfo.

Definition getServerInfo : M HasticServerInfo :=
  let! data := get "/" JUndefined in
  if is_undefined data then ret HasticServerInfoUnknown else
  let! nodeVersion := lift (get_field data "nodeVersion") in
  let! packageVersion := lift (get_field data "packageVersion") in
  let! npmUserAgent := lift (get_field data "npmUserAgent") in
  let! docker := lift (get_field data "docker") in
  let! zmqConectionString := lift (get_field data "zmqConectionString") in
  let! serverPort := lift (get_field data "serverPort") in
  let! git := lift (get_field data "git") in
  let! gitBranch := lift (get_field git "branch") in
  let! git' := lift (get_field data "git") in
  let! gitCommitHash := lift (get_field git' "commitHash") in
  ret (mk_info nodeVersion packageVersion npmUserAgent docker zmqConectionString
               serverPort gitBranch gitCommitHash).

End ServerInfo.

Definition getHSR (analyticUnitId from to : jsval) : M jsval :=
  let! data := get "/query"
                 (JObj [ ("analyticUnitId", analyticUnitId); ("from", from); ("to", to) ]) in
  if is_undefined data then ret JNull
  else lift (get_field data "results").



Definition runDetect (ids from to : jsval) : M jsval :=
  let ids := if negb (isArray ids) then JArr [ ids ] else ids in
  post "/analyticUnits/detect" (JObj [ ("ids", ids); ("from", from); ("to", to) ]).

(** The getters [hasticDatasourceURL] and [isUp]. *)
Definition hasticDatasourceURL (this : AnalyticService) : maybe_string :=
  _hasticDatasourceURL this.
Definition isUp (this : AnalyticService) : bool := _isUp this.

(** A transport that answers every request. *)
Definition always_answers (h : transport) : Prop :=
  forall n r, exists d, h n r = Resolved d.

(** The events named [hastic-datasource-status-changed] of a list. *)
Definition status_changes (l : list app_event) : list app_event :=
  List.filter (fun e => String.eqb (ev_name e) "hastic-datasource-status-changed") l.


(** [v === undefined || v === null] *)
Definition is_nullish (v : jsval) : bool :=
  match v with JUndefined | JNull => true | _ => false end.

(** The value of [s.k] for a value [s] that can be read. *)
Definition read (s : jsval) (k : string) : jsval :=
  match get_field s k with
  | Normal v => v
  | Throw _ => JUndefined
  end.

(** The segment [getSegments] makes of one item of the response. *)
Definition segment_of (s : jsval) : AnalyticSegment :=
  new_AnalyticSegment (read s "labeled") (read s "id") (read s "from") (read s "to")
                      (read s "deleted").



(** Sample server information for an unknown server. *)
Definition sample_unknown_info : HasticServerInfo :=
  mk_info JNull JNull JNull JNull JNull JNull JNull JNull.

(** A transport that fails its first request with [error] and answers
    [d] from then on. *)
Definition recovering_transport (error : http_error) (d : jsval) : transport :=
  fun n _ => match n with O => Rejected error | S _ => Resolved d end.

(** A response of a Hastic server of the sample version. *)
Definition sample_server_response : jsval :=
  JObj [ ("server", JStr "OK"); ("packageVersion", JStr "0.3.6") ].

(** An endpoint whose registry key is neither of the two keys at which
    a plain object is not a map. *)
Definition plain_endpoint (u : maybe_string) : Prop :=
  to_js_string u <> "__proto__" /\ to_js_string u <> "hasOwnProperty".

(** A registry that has no own property [hasOwnProperty]. *)
Definition plain_registry (w : World) : Prop :=
  recorded (Str "hasOwnProperty") w = None.

(** A world whose registry exists and is empty. *)
Definition world_empty_registry : World := mk_world (Some ∅) "" [] [] [] 0.

(** ** Alerts and the registry *)

Lemma emitted_app (w w' : World) (new : list app_event) :
  appEvents w' = new ++ appEvents w -> emitted w w' = new.
Proof.
  intros E. unfold emitted. rewrite E, length_app.
  replace (length new + length (appEvents w) - length (appEvents w))%nat
    with (length new) by lia.
  apply take_app_length.
Qed.

Lemma notification_visible st msg : is_user_notification (notification st msg) = true.
Proof. destruct st; reflexivity. Qed.

(** What one run of [_updateHasticUrlStatus] returns and leaves: the
    answer says whether the entry was absent or different, the entry is
    then the new value, and only the registry and the event log move. *)
Lemma updateHasticUrlStatus_run st this w :
  exists w',
    _updateHasticUrlStatus st (this, w)
      = (Normal (negb (bool_decide (recorded (_hasticDatasourceURL this) w = Some st))),
         (this, w'))
    /\ recorded (_hasticDatasourceURL this) w' = Some st
    /\ window_status w' = window_status w
    /\ console w' = console w
    /\ requests w' = requests w
    /\ clock w' = clock w
    /\ appEvents w'
       = match recorded (_hasticDatasourceURL this) w with
         | Some old =>
             if bool_decide (old = st) then []
             else [status_changed_event (_hasticDatasourceURL this)]
         | None => []
         end ++ appEvents w.
Proof.
  unfold _updateHasticUrlStatus, recorded, bind, get_this, get_world, modify_world,
    emit, ret.
  destruct w as [reg ws ev co rq ck]; simpl.
  destruct reg as [r|]; simpl.
  - destruct (r !! to_js_string (_hasticDatasourceURL this)) as [old|] eqn:L; simpl;
      repeat case_bool_decide; simplify_eq; try congruence; simpl;
      (eexists; split; [reflexivity|]); simpl;
      rewrite ?lookup_insert_eq, ?L; auto 10.
  - rewrite lookup_empty. simpl. repeat case_bool_decide; simplify_eq; simpl.
    eexists; split; [reflexivity|]. simpl. rewrite lookup_insert_eq. auto 10.
Qed.

Lemma notifications_alert_events st msg u w :
  notifications (alert_events st msg u w)
  = if bool_decide (recorded u w = Some st) then [] else [notification st msg].
Proof.
  unfold alert_events.
  destruct (recorded u w) as [old|]; repeat case_bool_decide; simplify_eq;
    try congruence; try reflexivity;
    unfold notifications; cbn [List.filter]; rewrite notification_visible; reflexivity.
Qed.

(** One alert call: the instance records the new status, the registry
    holds it afterwards, and the events are those of [alert_events]. *)
Lemma displayConnectionAlert_run st msg this w :
  exists w',
    _displayConnectionAlert st msg (this, w) = (Normal tt, (alerted st msg this, w'))
    /\ recorded (_hasticDatasourceURL this) w' = Some st
    /\ window_status w' = window_status w
    /\ console w' = console w
    /\ requests w' = requests w
    /\ clock w' = clock w
    /\ appEvents w' = alert_events st msg (_hasticDatasourceURL this) w ++ appEvents w.
Proof.
  destruct (updateHasticUrlStatus_run st (alerted st msg this) w)
    as (w1 & Hrun & Hrec & Hws & Hco & Hrq & Hck & Hev).
  unfold _displayConnectionAlert, bind, modify_this. simpl.
  change (set_status (set_message (join "<br /> " msg))
            (set_status (set_availability st) this)) with (alerted st msg this).
  rewrite Hrun. simpl in *.
  unfold alert_events.
  destruct (recorded (_hasticDatasourceURL this) w) as [old|] eqn:R.
  - destruct (decide (old = st)) as [->|Hne].
    + rewrite bool_decide_eq_true_2 by reflexivity. simpl.
      rewrite bool_decide_eq_true_2 in Hev |- * by reflexivity.
      exists w1. auto 10.
    + rewrite (bool_decide_eq_false_2 (Some old = Some st)) by congruence. simpl.
      rewrite (bool_decide_eq_false_2 (old = st)) in Hev |- * by assumption.
      eexists; split; [reflexivity|]. simpl. rewrite Hev. auto 10.
  - rewrite bool_decide_eq_false_2 by congruence. simpl.
    eexists; split; [reflexivity|]. simpl. rewrite Hev. auto 10.
Qed.

(** ** The dispatcher, case by case *)

Section Dispatcher.

Variables (method url : string) (data : jsval).
Variables (this : AnalyticService) (w : World).

Let request := build_request this method url data.

(** The transport answered: the body of the response is returned. *)
Lemma analyticRequest_answered d :
  http this (length (requests w)) request = Resolved d ->
  _analyticRequest method url data (this, w)
  = (Normal d, (set_isUp true this, push_request request w)).
Proof.
  intros H. unfold _analyticRequest, bind, get_this, get_world, modify_world,
    modify_this, ret. simpl. fold request. rewrite H. reflexivity.
Qed.

(** The transport failed, but not as a connectivity failure: the [else]
    branch of the [catch] block, after which the function ends. *)
Lemma analyticRequest_reachable error :
  http this (length (requests w)) request = Rejected error ->
  connectivity_failure error = false ->
  _analyticRequest method url data (this, w)
  = (Normal JUndefined, (set_isUp true this, push_request request w)).
Proof.
  intros H Hc. unfold _analyticRequest, bind, get_this, get_world, modify_world,
    modify_this, ret. simpl. fold request. rewrite H, Hc. reflexivity.
Qed.

(** The transport failed as a connectivity failure: the alert call, the
    flag and the raised error. *)
Lemma analyticRequest_unreachable error :
  http this (length (requests w)) request = Rejected error ->
  connectivity_failure error = true ->
  exists w',
    _analyticRequest method url data (this, w)
    = (Throw (mk_error KError ("Fetching error: " +:+ pretty (status error))),
       (set_isUp false (alerted NOT_AVAILABLE (connectivity_message error this) this), w'))
    /\ recorded (_hasticDatasourceURL this) w' = Some NOT_AVAILABLE
    /\ console w' = console w
    /\ requests w' = request :: requests w
    /\ clock w' = clock w
    /\ appEvents w'
       = alert_events NOT_AVAILABLE (connectivity_message error this)
           (_hasticDatasourceURL this) w ++ appEvents w.
Proof.
  intros H Hc.
  set (w1 := if negb (String.eqb (statusText error) "")
             then set_window_status
                    (window_status w +:+ " (" +:+ statusText error +:+ ")")
                    (push_request request w)
             else push_request request w).
  assert (Hrec : recorded (_hasticDatasourceURL this) w1
                 = recorded (_hasticDatasourceURL this) w)
    by (subst w1; destruct (negb _); reflexivity).
  assert (Hev1 : appEvents w1 = appEvents w)
    by (subst w1; destruct (negb _); reflexivity).
  assert (Hco1 : console w1 = console w)
    by (subst w1; destruct (negb _); reflexivity).
  assert (Hrq1 : requests w1 = request :: requests w)
    by (subst w1; destruct (negb _); reflexivity).
  assert (Hck1 : clock w1 = clock w)
    by (subst w1; destruct (negb _); reflexivity).
  destruct (displayConnectionAlert_run NOT_AVAILABLE
              (connectivity_message error this) this w1)
    as (w2 & Hrun & Hr2 & _ & Hco2 & Hrq2 & Hck2 & Hev2).
  exists w2.
  split.
  - unfold _analyticRequest, bind, get_this, get_world, modify_world,
      modify_this, ret, throw. simpl. fold request. rewrite H, Hc.
    assert (Hstep :
      (if timeout_status error
       then _displayConnectionTimeoutAlert (pretty (status error))
       else _displayNoConnectionAlert (pretty (status error))) (this, w1)
      = (Normal tt,
         (alerted NOT_AVAILABLE (connectivity_message error this) this, w2))).
    { rewrite <- Hrun. unfold connectivity_message.
      destruct (timeout_status error); reflexivity. }
    subst w1. destruct (negb (String.eqb (statusText error) "")); simpl;
      rewrite Hstep; reflexivity.
  - unfold alert_events in *. rewrite Hrec in Hev2. rewrite Hev1 in Hev2.
    repeat split; congruence.
Qed.

End Dispatcher.

(** ** Classification of transport failures *)




(** C2: for every dispatcher call whose transport completed with HTTP
    status at most 500 but still raised a transport-level error, the call
    resolves to [undefined] and [isUp] is set to true; nothing but the
    flag and the request log changes. *)
Theorem analyticRequest_suppressed_server_error
    (method url : string) (data : jsval) (this : AnalyticService) (w : World)
    (error : http_error) :
  http this (length (requests w)) (build_request this method url data) = Rejected error ->
  xhrStatus error = "complete" ->
  (status error <= 500)%Z ->
  let r := _analyticRequest method url data (this, w) in
  fst r = Normal JUndefined
  /\ _isUp (this_after r) = true
  /\ r = (Normal JUndefined,
          (set_isUp true this, push_request (build_request this method url data) w)).
Proof.
  intros H Hx Hs r.
  assert (Hc : connectivity_failure error = false).
  { unfold connectivity_failure. rewrite Hx. simpl. apply Z.ltb_ge. exact Hs. }
  subst r. rewrite (analyticRequest_reachable method url data this w error H Hc).
  repeat split.
Qed.

Lemma analyticRequest_suppressed_server_error_witness :
  (status not_found_error <= 500)%Z
  /\ fst (_analyticRequest "PATCH" "/segments" JNull
            (service_at example_url (failing_transport not_found_error), fresh_world))
     = Normal JUndefined.
Proof.
  split; [vm_compute; discriminate|].
  apply (analyticRequest_suppressed_server_error "PATCH" "/segments" JNull
           (service_at example_url (failing_transport not_found_error)) fresh_world
           not_found_error); [reflexivity | reflexivity | vm_compute; discriminate].
Defined.




(** The classification on the statuses of the dispatcher's comments. *)

Example bad_gateway_is_no_connection :
  let this := service_at example_url (failing_transport bad_gateway_error) in
  let r := _analyticRequest "GET" "/segments" JUndefined (this, fresh_world) in
  fst r = Throw (mk_error KError "Fetching error: 502")
  /\ emitted fresh_world (world_after r)
     = [notification NOT_AVAILABLE (no_connection_message "502" this)]
  /\ window_status (world_after r) = " (Bad Gateway)".
Proof. vm_compute. repeat split. Qed.

Example gateway_timeout_is_timeout :
  let this := service_at example_url (failing_transport gateway_timeout_error) in
  let r := _analyticRequest "post" "/analyticUnits" JNull (this, fresh_world) in
  fst r = Throw (mk_error KError "Fetching error: 504")
  /\ emitted fresh_world (world_after r)
     = [notification NOT_AVAILABLE (timeout_message "504" this)]
  /\ requests (world_after r)
     = [mk_request "POST" "http://localhost:8000/analyticUnits" None (Some JNull)].
Proof. vm_compute. repeat split. Qed.

Example incomplete_500_is_no_connection :
  let this := service_at example_url (failing_transport broken_internal_error) in
  let r := _analyticRequest "DELETE" "/analyticUnits" JNull (this, world_known_down) in
  fst r = Throw (mk_error KError "Fetching error: 500")
  /\ message (hasticDatasourceStatus (this_after r))
     = join "<br /> " (no_connection_message "500" this)
  /\ emitted world_known_down (world_after r) = []
  /\ window_status (world_after r) = "".
Proof. vm_compute. repeat split. Qed.

(** ** De-duplication of alerts *)

Lemma notifications_app (l1 l2 : list app_event) :
  notifications (l1 ++ l2) = notifications l1 ++ notifications l2.
Proof. unfold notifications. apply List.filter_app. Qed.

Lemma emitted_trans (w w1 w2 : World) (e1 e2 : list app_event) :
  appEvents w1 = e1 ++ appEvents w ->
  appEvents w2 = e2 ++ appEvents w1 ->
  emitted w w2 = e2 ++ e1.
Proof.
  intros H1 H2. apply emitted_app. rewrite H2, H1. apply app_assoc.
Qed.

(** Two alert calls with the same value, by instances sharing the
    endpoint: the second one is silent. *)
Lemma displayConnectionAlert_twice st a b msg_a msg_b w :
  _hasticDatasourceURL a = _hasticDatasourceURL b ->
  let w1 := world_after (_displayConnectionAlert st msg_a (a, w)) in
  let w2 := world_after (_displayConnectionAlert st msg_b (b, w1)) in
  notifications (emitted w w1)
  = (if bool_decide (recorded (_hasticDatasourceURL a) w = Some st)
     then [] else [notification st msg_a])
  /\ notifications (emitted w1 w2) = []
  /\ notifications (emitted w w2) = notifications (emitted w w1).
Proof.
  intros Hurl w1 w2.
  destruct (displayConnectionAlert_run st msg_a a w)
    as (wa & Hrun_a & Hrec_a & _ & _ & _ & _ & Hev_a).
  assert (E1 : w1 = wa) by (subst w1; rewrite Hrun_a; reflexivity).
  destruct (displayConnectionAlert_run st msg_b b w1)
    as (wb & Hrun_b & Hrec_b & _ & _ & _ & _ & Hev_b).
  assert (E2 : w2 = wb) by (subst w2; rewrite Hrun_b; reflexivity).
  rewrite E2. clearbody w1 w2. subst w1 w2.
  assert (Hsilent : alert_events st msg_b (_hasticDatasourceURL b) wa = []).
  { unfold alert_events. rewrite <- Hurl, Hrec_a.
    rewrite bool_decide_eq_true_2 by reflexivity. reflexivity. }
  rewrite Hsilent in Hev_b. simpl in Hev_b.
  rewrite (emitted_app _ _ _ Hev_a).
  rewrite (emitted_app wa wb [] Hev_b).
  rewrite (emitted_trans w wa wb _ [] Hev_a Hev_b). simpl.
  repeat split. apply notifications_alert_events.
Qed.

(** ** The registry as a plain object *)

(** For an endpoint other than [__proto__] and a registry without an
    own [hasOwnProperty], the plain object does what the map does. *)
Lemma updateHasticUrlStatus_plain_object_agrees st this w :
  to_js_string (_hasticDatasourceURL this) <> "__proto__" ->
  plain_registry w ->
  _updateHasticUrlStatus_plain_object st (this, w) = _updateHasticUrlStatus st (this, w).
Proof.
  intros Hproto Hplain.
  assert (Hassign : forall reg,
            registry_assign (to_js_string (_hasticDatasourceURL this)) st reg
            = <[to_js_string (_hasticDatasourceURL this) := st]> reg).
  { intros reg. unfold registry_assign.
    destruct (String.eqb_spec (to_js_string (_hasticDatasourceURL this)) "__proto__");
      [contradiction | reflexivity]. }
  unfold plain_registry, recorded in Hplain.
  unfold _updateHasticUrlStatus_plain_object, _updateHasticUrlStatus, bind, get_this,
    get_world, modify_world, emit, ret, lift, registry_hasOwnProperty.
  destruct w as [reg ws ev co rq ck]; simpl in *.
  destruct reg as [r|]; simpl in *.
  - rewrite Hplain, !Hassign.
    destruct (r !! to_js_string (_hasticDatasourceURL this)) as [old|] eqn:L; simpl.
    + repeat case_bool_decide; simplify_eq; try congruence; reflexivity.
    + reflexivity.
  - rewrite !lookup_empty, ?Hassign. simpl. rewrite ?Hassign. reflexivity.
Qed.

Lemma displayConnectionAlert_plain_object_agrees st msg this w :
  to_js_string (_hasticDatasourceURL this) <> "__proto__" ->
  plain_registry w ->
  _displayConnectionAlert_plain_object st msg (this, w)
  = _displayConnectionAlert st msg (this, w).
Proof.
  intros Hproto Hplain.
  unfold _displayConnectionAlert_plain_object, _displayConnectionAlert, bind, modify_this.
  cbn [fst snd].
  change (set_status (set_message (join "<br /> " msg))
            (set_status (set_availability st) this)) with (alerted st msg this).
  rewrite (updateHasticUrlStatus_plain_object_agrees st (alerted st msg this) w
             Hproto Hplain).
  reflexivity.
Qed.

(** A plain registry stays plain under the alert calls of a plain
    endpoint, and the entries of other endpoints stay as they are. *)
Lemma displayConnectionAlert_other_entries st msg this w (u : maybe_string) :
  to_js_string u <> to_js_string (_hasticDatasourceURL this) ->
  recorded u (world_after (_displayConnectionAlert st msg (this, w))) = recorded u w.
Proof.
  intros Hne.
  unfold _displayConnectionAlert, _updateHasticUrlStatus, recorded, world_after, bind,
    get_this, get_world, modify_this, modify_world, emit, ret.
  destruct w as [reg ws ev co rq ck]; simpl.
  destruct reg as [r|]; simpl.
  - destruct (r !! to_js_string (_hasticDatasourceURL this)) as [old|] eqn:L; simpl;
      repeat case_bool_decide; simpl;
      try reflexivity; rewrite lookup_insert_ne by congruence; reflexivity.
  - rewrite lookup_empty. simpl.
    rewrite lookup_insert_ne by congruence. apply lookup_empty.
Qed.

Lemma plain_registry_kept st msg this w :
  plain_endpoint (_hasticDatasourceURL this) ->
  plain_registry w ->
  plain_registry (world_after (_displayConnectionAlert st msg (this, w))).
Proof.
  intros [_ Hown] Hplain. unfold plain_registry.
  rewrite displayConnectionAlert_other_entries; [exact Hplain|].
  cbn [to_js_string]. congruence.
Qed.

(** C6 on the code: two instances whose endpoint is the string
    [__proto__] record the same result one after the other, starting from
    an empty registry: the registry object never gets an entry, each call
    takes the value for a first recording, and two notifications are shown
    where the claim says one. *)
Theorem proto_endpoint_notifies_twice :
  let a := service_at (Str "__proto__") (failing_transport abort_error) in
  let b := service_at (Str "__proto__") (failing_transport not_found_error) in
  let w1 := world_after (_displayConnectionAlert_plain_object NOT_AVAILABLE [ "first" ]
                           (a, fresh_world)) in
  let w2 := world_after (_displayConnectionAlert_plain_object NOT_AVAILABLE [ "second" ]
                           (b, w1)) in
  notifications (emitted fresh_world w2)
  = [ notification NOT_AVAILABLE [ "second" ]; notification NOT_AVAILABLE [ "first" ] ]
  /\ recorded (Str "__proto__") w1 = None
  /\ recorded (Str "__proto__") w2 = None.
Proof. vm_compute. repeat split. Qed.

(** The other key: once the endpoint [hasOwnProperty] has been recorded,
    the next alert call of any instance throws a [TypeError] instead of
    consulting the registry. *)
Example hasOwnProperty_endpoint_breaks_registry :
  let a := service_at (Str "hasOwnProperty") (failing_transport abort_error) in
  let b := service_at example_url (failing_transport abort_error) in
  let w1 := world_after (_displayConnectionAlert_plain_object NOT_AVAILABLE [ "first" ]
                           (a, fresh_world)) in
  is_throw (fst (_displayConnectionAlert_plain_object NOT_AVAILABLE [ "second" ] (b, w1)))
  = true.
Proof. vm_compute. reflexivity. Qed.

(** X26: for an endpoint other than [__proto__] and [hasOwnProperty] and
    a registry without an own [hasOwnProperty], a connection-alert call
    shows a notification if and only if the value being recorded differs
    from the registry entry of the endpoint, an absent entry counting as
    different; and two instances sharing such an endpoint that record the
    same value show at most one notification overall, exactly one when
    the registry did not hold that value before, the second call being
    silent, in either order of the two instances. *)
Theorem plain_endpoint_dedup (st : HasticDatasourceAvailability) (a b : AnalyticService)
    (msg_a msg_b : list string) (w : World) :
  plain_endpoint (_hasticDatasourceURL a) ->
  plain_registry w ->
  _hasticDatasourceURL a = _hasticDatasourceURL b ->
  let first x msg := world_after (_displayConnectionAlert_plain_object st msg (x, w)) in
  let ab := world_after (_displayConnectionAlert_plain_object st msg_b
                           (b, first a msg_a)) in
  let ba := world_after (_displayConnectionAlert_plain_object st msg_a
                           (a, first b msg_b)) in
  notifications (emitted w (first a msg_a))
  = (if bool_decide (recorded (_hasticDatasourceURL a) w = Some st)
     then [] else [notification st msg_a])
  /\ notifications (emitted (first a msg_a) ab) = []
  /\ length (notifications (emitted w ab)) = length (notifications (emitted w ba))
  /\ (length (notifications (emitted w ab)) <= 1)%nat
  /\ (recorded (_hasticDatasourceURL a) w <> Some st ->
      notifications (emitted w ab) = [notification st msg_a]
      /\ notifications (emitted w ba) = [notification st msg_b])
  /\ (recorded (_hasticDatasourceURL a) w = Some st ->
      notifications (emitted w ab) = []).
Proof.
  intros Hpa Hplain Hurl first ab ba.
  assert (Hpb : plain_endpoint (_hasticDatasourceURL b)) by (rewrite <- Hurl; exact Hpa).
  assert (Hfa : first a msg_a = world_after (_displayConnectionAlert st msg_a (a, w))).
  { unfold first. rewrite (displayConnectionAlert_plain_object_agrees st msg_a a w
                             (proj1 Hpa) Hplain). reflexivity. }
  assert (Hfb : first b msg_b = world_after (_displayConnectionAlert st msg_b (b, w))).
  { unfold first. rewrite (displayConnectionAlert_plain_object_agrees st msg_b b w
                             (proj1 Hpb) Hplain). reflexivity. }
  assert (Hab : ab = world_after (_displayConnectionAlert st msg_b
                        (b, world_after (_displayConnectionAlert st msg_a (a, w))))).
  { unfold ab. rewrite Hfa.
    rewrite (displayConnectionAlert_plain_object_agrees st msg_b b _ (proj1 Hpb)
               (plain_registry_kept st msg_a a w Hpa Hplain)). reflexivity. }
  assert (Hba : ba = world_after (_displayConnectionAlert st msg_a
                        (a, world_after (_displayConnectionAlert st msg_b (b, w))))).
  { unfold ba. rewrite Hfb.
    rewrite (displayConnectionAlert_plain_object_agrees st msg_a a _ (proj1 Hpa)
               (plain_registry_kept st msg_b b w Hpb Hplain)). reflexivity. }
  rewrite Hab, Hba, Hfa. clear Hab Hba Hfa Hfb. clearbody first ab ba.
  destruct (displayConnectionAlert_twice st a b msg_a msg_b w Hurl)
    as (Ha & Hsilent & Htot_ab).
  destruct (displayConnectionAlert_twice st b a msg_b msg_a w (eq_sym Hurl))
    as (Hb & _ & Htot_ba).
  rewrite <- Hurl in Hb.
  split; [exact Ha|]. split; [exact Hsilent|].
  rewrite Htot_ab, Htot_ba, Ha, Hb.
  case_bool_decide as Hrec; simpl; repeat split; auto; try lia; congruence.
Qed.

Lemma plain_endpoint_dedup_witness :
  let a := service_at example_url (failing_transport abort_error) in
  let b := service_at example_url (failing_transport not_found_error) in
  length (notifications (emitted fresh_world
            (world_after (_displayConnectionAlert_plain_object NOT_AVAILABLE ["second"]
               (b, world_after (_displayConnectionAlert_plain_object NOT_AVAILABLE
                                  ["first"] (a, fresh_world)))))))
  = 1%nat.
Proof.
  intros a b.
  destruct (plain_endpoint_dedup NOT_AVAILABLE a b ["first"] ["second"] fresh_world)
    as (_ & _ & _ & _ & Hfresh & _).
  - split; vm_compute; discriminate.
  - reflexivity.
  - reflexivity.
  - destruct Hfresh as [Hab _]; [vm_compute; discriminate|].
    rewrite Hab. reflexivity.
Defined.

(** ** The availability probe, path by path *)

Section ProbeFacts.

Variable isHasticServerResponse : jsval -> bool.
Variable isSupportedServerVersion : jsval -> bool.
Variable SUPPORTED_SERVER_VERSION : string.

(** The part of the [try] block that follows the root [GET]. *)
Let after_get (response : jsval) : M bool :=
  if negb (isHasticServerResponse response) then
    displayWrongUrlAlert ;;
    ret false
  else if negb (isSupportedServerVersion response) then
    let! packageVersion := lift (get_field response "packageVersion") in
    displayUnsupportedVersionAlert SUPPORTED_SERVER_VERSION packageVersion ;;
    ret false
  else
    let! this := get_this in
    _displayConnectionAlert AVAILABLE (connected_message this) ;;
    ret true.

Let on_error (e : js_error) : M bool :=
  modify_world (push_console e) ;;
  ret false.

Lemma isDatasourceAvailable_unconfigured this w :
  url_missing (_hasticDatasourceURL this) = true ->
  _isDatasourceAvailable isHasticServerResponse isSupportedServerVersion
    SUPPORTED_SERVER_VERSION (this, w)
  = (Normal false,
     (this, push_event (mk_event "alert-warning" (PMessage config_missing_message)) w)).
Proof.
  intros H. unfold _isDatasourceAvailable, _checkDatasourceConfig, bind, get_this, emit,
    modify_world, ret. simpl. rewrite H. reflexivity.
Qed.

Lemma isDatasourceAvailable_configured this w :
  url_missing (_hasticDatasourceURL this) = false ->
  _isDatasourceAvailable isHasticServerResponse isSupportedServerVersion
    SUPPORTED_SERVER_VERSION (this, w)
  = try_catch (let! response := get "/" JUndefined in after_get response) on_error (this, w).
Proof.
  intros H. unfold _isDatasourceAvailable, _checkDatasourceConfig.
  unfold bind at 1. unfold get_this at 1. unfold bind at 1. cbn [fst snd].
  rewrite H. reflexivity.
Qed.

(** The handling of a delivered response never throws out of the [try]
    block; it leaves the flags, the endpoint and the request log alone,
    and the recorded availability follows the answer unless the response
    passed the server check without being an object. *)
Lemma after_get_run response this w :
  exists b this' w',
    try_catch (after_get response) on_error (this, w) = (Normal b, (this', w'))
    /\ testing (hasticDatasourceStatus this') = testing (hasticDatasourceStatus this)
    /\ _isUp this' = _isUp this
    /\ requests w' = requests w
    /\ (b = true ->
        availability (hasticDatasourceStatus this') = AVAILABLE)
    /\ (b = false ->
        is_throw (get_field response "packageVersion") = false
        \/ isHasticServerResponse response = false ->
        availability (hasticDatasourceStatus this') = NOT_AVAILABLE).
Proof.
  unfold try_catch, after_get.
  destruct (isHasticServerResponse response) eqn:Hh; cbn [negb].
  - destruct (isSupportedServerVersion response) eqn:Hs; cbn [negb].
    + unfold bind at 1. unfold get_this at 1. unfold bind at 1. cbn [fst snd].
      destruct (displayConnectionAlert_run AVAILABLE (connected_message this) this w)
        as (w' & Hrun & _ & _ & _ & Hrq & _ & _).
      rewrite Hrun. unfold ret.
      exists true, (alerted AVAILABLE (connected_message this) this), w'.
      repeat split; auto; discriminate.
    + unfold bind at 1. unfold lift.
      destruct (get_field response "packageVersion") as [v|e] eqn:Hf.
      * unfold bind at 1. unfold displayUnsupportedVersionAlert.
        unfold bind at 1. unfold get_this at 1.  cbn [fst snd].
        match goal with
        | |- context [_displayConnectionAlert NOT_AVAILABLE ?m (this, w)] =>
            destruct (displayConnectionAlert_run NOT_AVAILABLE m this w)
              as (w' & Hrun & _ & _ & _ & Hrq & _ & _);
            rewrite Hrun; unfold ret;
            exists false, (alerted NOT_AVAILABLE m this), w'
        end.
        repeat split; auto; discriminate.
      * unfold on_error, bind, modify_world, ret. cbn [fst snd].
        exists false, this, (push_console e w).
        repeat split; auto; try discriminate.
        intros _ [H|H]; discriminate H.
  - unfold bind at 1. unfold displayWrongUrlAlert.
    unfold bind at 1. unfold get_this at 1. cbn [fst snd].
    match goal with
    | |- context [_displayConnectionAlert NOT_AVAILABLE ?m (this, w)] =>
        destruct (displayConnectionAlert_run NOT_AVAILABLE m this w)
          as (w' & Hrun & _ & _ & _ & Hrq & _ & _);
        rewrite Hrun; unfold ret;
        exists false, (alerted NOT_AVAILABLE m this), w'
    end.
    repeat split; auto; discriminate.
Qed.

Lemma isDatasourceAvailable_run this w :
  exists b this' w',
    _isDatasourceAvailable isHasticServerResponse isSupportedServerVersion
      SUPPORTED_SERVER_VERSION (this, w) = (Normal b, (this', w'))
    /\ testing (hasticDatasourceStatus this') = testing (hasticDatasourceStatus this)
    /\ (b = true -> availability (hasticDatasourceStatus this') = AVAILABLE)
    /\ (b = false -> recognised_is_object isHasticServerResponse ->
        url_missing (_hasticDatasourceURL this) = false
        \/ availability (hasticDatasourceStatus this) = NOT_AVAILABLE ->
        availability (hasticDatasourceStatus this') = NOT_AVAILABLE)
    /\ (forall error,
          url_missing (_hasticDatasourceURL this) = false ->
          http this (length (requests w)) (build_request this "GET" "/" JUndefined)
            = Rejected error ->
          connectivity_failure error = true ->
          b = false
          /\ availability (hasticDatasourceStatus this') = NOT_AVAILABLE
          /\ recorded (_hasticDatasourceURL this) w' = Some NOT_AVAILABLE)
    /\ (url_missing (_hasticDatasourceURL this) = true ->
        b = false /\ this' = this /\ requests w' = requests w
        /\ appEvents w'
           = mk_event "alert-warning" (PMessage config_missing_message) :: appEvents w).
Proof.
  destruct (url_missing (_hasticDatasourceURL this)) eqn:Hcfg.
  - rewrite (isDatasourceAvailable_unconfigured this w Hcfg).
    exists false, this, (push_event (mk_event "alert-warning" (PMessage config_missing_message)) w).
    repeat split; try discriminate.
    intros _ _ [H|H]; [discriminate H | exact H].
  - rewrite (isDatasourceAvailable_configured this w Hcfg).
    assert (Hresp : forall d this1 w1,
      _analyticRequest "GET" "/" JUndefined (this, w) = (Normal d, (this1, w1)) ->
      testing (hasticDatasourceStatus this1) = testing (hasticDatasourceStatus this) ->
      exists b this' w',
        try_catch (let! response := get "/" JUndefined in after_get response) on_error
          (this, w) = (Normal b, (this', w'))
        /\ testing (hasticDatasourceStatus this') = testing (hasticDatasourceStatus this)
        /\ (b = true -> availability (hasticDatasourceStatus this') = AVAILABLE)
        /\ (b = false -> recognised_is_object isHasticServerResponse ->
            availability (hasticDatasourceStatus this') = NOT_AVAILABLE)).
    { intros d this1 w1 Hget Ht.
      destruct (after_get_run d this1 w1)
        as (b & this' & w' & Hrun & Ht' & _ & _ & Htrue & Hfalse).
      exists b, this', w'. split.
      - unfold try_catch in *. unfold bind at 1. unfold get. rewrite Hget. exact Hrun.
      - split; [congruence|]. split; [exact Htrue|].
        intros Hb Hobj. apply Hfalse; [exact Hb|].
        destruct (isHasticServerResponse d) eqn:Hh; [left; apply Hobj; exact Hh | right; reflexivity]. }
    destruct (http this (length (requests w)) (build_request this "GET" "/" JUndefined))
      as [d|error] eqn:Hhttp.
    + destruct (Hresp d _ _ (analyticRequest_answered "GET" "/" JUndefined this w d Hhttp)
                  eq_refl)
        as (b & this' & w' & Hrun & Ht & Htrue & Hfalse).
      exists b, this', w'.
      split; [exact Hrun|]. split; [exact Ht|]. split; [exact Htrue|].
      split; [intros; auto|]. split; [|intros; discriminate].
      intros e0 _ He0. discriminate He0.
    + destruct (connectivity_failure error) eqn:Hc.
      * destruct (analyticRequest_unreachable "GET" "/" JUndefined this w error Hhttp Hc)
          as (w' & Hrun & Hrec & _ & _ & _ & _).
        eexists false, _, (push_console _ w').
        split.
        { unfold try_catch. unfold bind at 1. unfold get. rewrite Hrun.
          unfold on_error, bind, modify_world, ret. cbn [fst snd]. reflexivity. }
        split; [reflexivity|]. split; [discriminate|].
        split; [intros; reflexivity|]. split; [|intros; discriminate].
        intros e0 _ _ _. repeat split. exact Hrec.
      * destruct (Hresp JUndefined _ _
                    (analyticRequest_reachable "GET" "/" JUndefined this w error Hhttp Hc)
                    eq_refl)
          as (b & this' & w' & Hrun & Ht & Htrue & Hfalse).
        exists b, this', w'.
        split; [exact Hrun|]. split; [exact Ht|]. split; [exact Htrue|].
        split; [intros; auto|]. split; [|intros; discriminate].
        intros e0 _ He0 Hc0. inversion He0; subst. congruence.
Qed.

(** The probe as [checkDatasourceAvailability] wraps it. *)
Lemma checkDatasourceAvailability_run this w :
  exists b this' w',
    _isDatasourceAvailable isHasticServerResponse isSupportedServerVersion
      SUPPORTED_SERVER_VERSION (set_status (set_testing true) this, w)
    = (Normal b, (this', w'))
    /\ checkDatasourceAvailability isHasticServerResponse isSupportedServerVersion
         SUPPORTED_SERVER_VERSION (this, w)
       = (Normal b, (set_status (set_testing false) (set_isUp b this'), w')).
Proof.
  destruct (isDatasourceAvailable_run (set_status (set_testing true) this) w)
    as (b & this' & w' & Hrun & _).
  exists b, this', w'. split; [exact Hrun|].
  unfold checkDatasourceAvailability.
  unfold bind at 1. unfold modify_this at 1. cbn [fst snd].
  unfold bind at 1. rewrite Hrun. reflexivity.
Qed.

End ProbeFacts.

(** ** The availability check *)






(** ** Construction with a missing endpoint *)

(** C5 (as amended): constructing the service with an [undefined]
    endpoint URL always throws, and construction itself sends no request;
    with [null] or the empty string construction succeeds, and the
    availability check of such an instance answers false with the
    configuration warning as its only event, without sending a request. *)
Theorem new_AnalyticService_missing_endpoint :
  (forall h,
     new_AnalyticService Undefined h
     = Throw (mk_error KTypeError "_hasticDatasourceURL is undefined"))
  /\ (forall u h, is_throw (new_AnalyticService u h) = true <-> u = Undefined)
  /\ (forall u h isHasticServerResponse isSupportedServerVersion
             SUPPORTED_SERVER_VERSION w,
        u = Null \/ u = Str "" ->
        exists this,
          new_AnalyticService u h = Normal this
          /\ let r := checkDatasourceAvailability isHasticServerResponse
                        isSupportedServerVersion SUPPORTED_SERVER_VERSION (this, w) in
             fst r = Normal false
             /\ requests (world_after r) = requests w
             /\ emitted w (world_after r)
                = [mk_event "alert-warning" (PMessage config_missing_message)]).
Proof.
  split; [reflexivity|]. split.
  - intros u h. destruct u; simpl; split; intros H; try discriminate H; reflexivity.
  - intros u h isH isS V w Hu.
    exists (service_at u h). split; [destruct Hu as [->| ->]; reflexivity|].
    intros r.
    assert (Hcfg : url_missing (_hasticDatasourceURL
                      (set_status (set_testing true) (service_at u h))) = true)
      by (destruct Hu as [->| ->]; reflexivity).
    destruct (checkDatasourceAvailability_run isH isS V (service_at u h) w)
      as (b & this' & w' & Hprobe & Hrun).
    rewrite (isDatasourceAvailable_unconfigured isH isS V _ w Hcfg) in Hprobe.
    inversion Hprobe; subst b this' w'.
    subst r. rewrite Hrun. unfold world_after. cbn [fst snd].
    repeat split. apply emitted_app. reflexivity.
Qed.

Lemma new_AnalyticService_missing_endpoint_witness :
  exists this,
    new_AnalyticService (Str "") (answering_transport JNull) = Normal this
    /\ fst (checkDatasourceAvailability sample_isHasticServerResponse
              sample_isSupportedServerVersion "0.3.6" (this, fresh_world))
       = Normal false.
Proof.
  destruct (proj2 (proj2 new_AnalyticService_missing_endpoint) (Str "")
              (answering_transport JNull) sample_isHasticServerResponse
              sample_isSupportedServerVersion "0.3.6" fresh_world
              (or_intror eq_refl)) as (this & Hnew & Hrun & _).
  exists this. split; assumption.
Defined.

(** C5 as stated fails: construction with the empty string, and with
    [null], does not throw. *)
Lemma new_AnalyticService_accepts_empty_endpoint :
  is_throw (new_AnalyticService (Str "") (answering_transport JNull)) = false
  /\ is_throw (new_AnalyticService Null (answering_transport JNull)) = false.
Proof. split; reflexivity. Qed.

(** ** Data contracts *)

(** C8: for every response the dispatcher delivers that lacks the
    required field, the operation raises instead of returning:
    [getSegments] when [segments] is missing, [getDetectionSpans] when the
    response is [undefined] or [spans] is missing, [updateSegments] when
    [addedIds] is missing; for a response that can be read (and a defined
    id) the error is the one that names the missing field. *)
Theorem missing_field_raises (this : AnalyticService) (w : World) (d : jsval) :
  (forall id from to,
     (forall p, fst (get "/segments" p (this, w)) = Normal d) ->
     lacks_field d "segments" = true ->
     exists e,
       fst (getSegments id from to (this, w)) = Throw e
       /\ (is_undefined id = false -> get_field d "segments" = Normal JUndefined ->
           e = mk_error KError "Server didn`t return segments array"))
  /\ (forall id from to,
        (forall p, fst (get "/detections/spans" p (this, w)) = Normal d) ->
        d = JUndefined \/ lacks_field d "spans" = true ->
        exists e,
          fst (getDetectionSpans id from to (this, w)) = Throw e
          /\ (is_undefined id = false ->
              d = JUndefined \/ get_field d "spans" = Normal JUndefined ->
              e = mk_error KError "Server didn`t return spans array"))
  /\ (forall id addedSegments removedSegments,
        (forall p, fst (patch "/segments" p (this, w)) = Normal d) ->
        lacks_field d "addedIds" = true ->
        exists e,
          fst (updateSegments id addedSegments removedSegments (this, w)) = Throw e
          /\ (get_field d "addedIds" = Normal JUndefined ->
              e = mk_error KError "Server didn`t send addedIds")).
Proof.
  split; [|split].
  - intros id from to Hget Hlack. unfold getSegments.
    destruct (is_undefined id); [eexists; split; [reflexivity | discriminate]|].
    unfold bind at 1.
    match goal with
    | |- context [get "/segments" ?p (this, w)] =>
        specialize (Hget p); destruct (get "/segments" p (this, w)) as [c st1]
    end.
    simpl in Hget. subst c. unfold bind at 1. unfold lift.
    unfold lacks_field in Hlack.
    destruct (get_field d "segments") as [v|e].
    + destruct v; try discriminate Hlack. simpl. eexists; split; [reflexivity | auto].
    + simpl. eexists; split; [reflexivity | discriminate].
  - intros id from to Hget Hlack. unfold getDetectionSpans.
    destruct (is_undefined id); [eexists; split; [reflexivity | discriminate]|].
    unfold bind at 1.
    match goal with
    | |- context [get "/detections/spans" ?p (this, w)] =>
        specialize (Hget p); destruct (get "/detections/spans" p (this, w)) as [c st1]
    end.
    simpl in Hget. subst c.
    destruct (is_undefined d) eqn:Hd; [eexists; split; [reflexivity | auto]|].
    destruct Hlack as [-> | Hlack]; [discriminate Hd|].
    unfold bind at 1. unfold lift. unfold lacks_field in Hlack.
    destruct (get_field d "spans") as [v|e].
    + destruct v; try discriminate Hlack. simpl. eexists; split; [reflexivity | auto].
    + simpl. eexists; split; [reflexivity|].
      intros _ [-> | H]; [discriminate Hd | discriminate H].
  - intros id added removed Hpatch Hlack. unfold updateSegments.
    unfold bind at 1.
    match goal with
    | |- context [patch "/segments" ?p (this, w)] =>
        specialize (Hpatch p); destruct (patch "/segments" p (this, w)) as [c st1]
    end.
    simpl in Hpatch. subst c. unfold bind at 1. unfold lift.
    unfold lacks_field in Hlack.
    destruct (get_field d "addedIds") as [v|e].
    + destruct v; try discriminate Hlack. simpl. eexists; split; [reflexivity | auto].
    + simpl. eexists; split; [reflexivity | discriminate].
Qed.

Lemma missing_field_raises_witness :
  let this := service_at example_url (answering_transport (JObj [ ("total", JNum 0) ])) in
  lacks_field (JObj [ ("total", JNum 0) ]) "segments" = true
  /\ fst (getSegments (JStr "unit-1") (JNum 10) JUndefined (this, fresh_world))
     = Throw (mk_error KError "Server didn`t return segments array").
Proof.
  intros this. split; [reflexivity|].
  destruct (proj1 (missing_field_raises this fresh_world (JObj [ ("total", JNum 0) ]))
              (JStr "unit-1") (JNum 10) JUndefined) as (e & Hrun & He).
  - intros p. reflexivity.
  - reflexivity.
  - rewrite Hrun. rewrite He; reflexivity.
Defined.

(** ** Polling *)

Lemma iterate_completed {T} (n : nat) (g : generator T) (st : state) :
  gen_position g = GenCompleted ->
  iterate n g st = (repeat (Normal Done) n, g, st).
Proof.
  intros H. induction n as [|n IH]; [reflexivity|].
  cbn [iterate]. unfold next at 1. rewrite H, IH. reflexivity.
Qed.

Lemma elements_done {T} (n : nat) :
  elements (repeat (@Normal (iterator_result T) Done) n) = [].
Proof. induction n; [reflexivity | exact IHn]. Qed.

Lemma iterate_undefined_id {T} (duration : Z) (func : jsval -> list jsval -> M T)
    (args : list jsval) (st : state) (n : nat) :
  let g := getGenerator JUndefined duration func args in
  iterate (S n) g st
  = (Throw (mk_error KError "id is undefined") :: repeat (Normal Done) n,
     move_to GenCompleted g, st).
Proof.
  intros g. cbn [iterate]. unfold next at 1. cbn [gen_position g getGenerator gen_id is_undefined].
  rewrite iterate_completed by reflexivity. reflexivity.
Qed.

(** C9: a polling sequence created with an [undefined] id fails with
    [id is undefined] on its first step, before producing any element, and
    is finished from then on; the fetch function is never invoked: the
    instance and the world stay as they were whatever the fetch function
    would do, a fetch function that marks its invocations leaves no mark,
    and the status and detection polls send no request. *)
Theorem getGenerator_undefined_id {T} (duration : Z)
    (func : jsval -> list jsval -> M T) (args : list jsval) (st : state) (n : nat) :
  let g := getGenerator JUndefined duration func args in
  next g st = (Throw (mk_error KError "id is undefined"), move_to GenCompleted g, st)
  /\ iterate (S n) g st
     = (Throw (mk_error KError "id is undefined") :: repeat (Normal Done) n,
        move_to GenCompleted g, st)
  /\ elements (fst (fst (iterate (S n) g st))) = []
  /\ snd (iterate (S n) (getGenerator JUndefined duration (marking func) args) st) = st
  /\ (forall from to,
        snd (iterate (S n) (getStatusGenerator JUndefined duration) st) = st
        /\ elements (fst (fst (iterate (S n) (getStatusGenerator JUndefined duration) st)))
           = []
        /\ snd (iterate (S n) (getDetectionsGenerator JUndefined from to duration) st) = st
        /\ elements (fst (fst (iterate (S n)
                          (getDetectionsGenerator JUndefined from to duration) st)))
           = []).
Proof.
  intros g. split; [reflexivity|].
  split; [apply iterate_undefined_id|].
  split; [unfold g; rewrite iterate_undefined_id; cbn [fst elements]; apply elements_done|].
  split; [rewrite iterate_undefined_id; reflexivity|].
  intros from to. unfold getStatusGenerator, getDetectionsGenerator.
  rewrite !iterate_undefined_id. cbn [fst snd elements].
  rewrite !elements_done. repeat split.
Qed.

(** The [catch] clause of the status fetch is never entered: the fetch
    is the dispatcher call. *)
Lemma statusFetch_is_get (id : jsval) :
  statusFetch id = get "/analyticUnits/status" (JObj [ ("id", id) ]).
Proof. reflexivity. Qed.

(** A 404 of the status endpoint, delivered by a completed transport,
    makes the status fetch resolve to [undefined]. *)
Lemma statusFetch_404 (id : jsval) (this : AnalyticService) (w : World)
    (error : http_error) :
  http this (length (requests w))
    (build_request this "GET" "/analyticUnits/status" (JObj [ ("id", id) ]))
  = Rejected error ->
  status error = 404%Z ->
  xhrStatus error = "complete" ->
  fst (statusFetch id (this, w)) = Normal JUndefined.
Proof.
  intros H Hs Hx. rewrite statusFetch_is_get. unfold get.
  rewrite (analyticRequest_reachable _ _ _ this w error H); [reflexivity|].
  unfold connectivity_failure. rewrite Hx, Hs. reflexivity.
Qed.

(** Any error the dispatcher raises leaves the status poll through the
    step that fetched: the step throws and the sequence is finished. *)
Lemma getStatusGenerator_failure_propagates (id : jsval) (duration : Z)
    (this : AnalyticService) (w : World) (error : http_error) :
  is_undefined id = false ->
  http this (length (requests w))
    (build_request this "GET" "/analyticUnits/status" (JObj [ ("id", id) ]))
  = Rejected error ->
  connectivity_failure error = true ->
  let r := next (getStatusGenerator id duration) (this, w) in
  fst (fst r) = Throw (mk_error KError ("Fetching error: " +:+ pretty (status error)))
  /\ gen_position (snd (fst r)) = GenCompleted.
Proof.
  intros Hid H Hc r.
  destruct (analyticRequest_unreachable "GET" "/analyticUnits/status"
              (JObj [ ("id", id) ]) this w error H Hc) as (w' & Hrun & _).
  subst r. unfold next, getStatusGenerator, getGenerator. cbn [gen_position gen_id].
  rewrite Hid. unfold yield_await_func. cbn [gen_func gen_id gen_args].
  rewrite statusFetch_is_get. unfold get. rewrite Hrun. split; reflexivity.
Qed.

(** C4 on the code: with a status endpoint that answers 404, the first
    element of the status poll is [undefined], not the sentinel
    [{status: '404'}]; no error is raised either. *)
Theorem getStatusGenerator_404_yields_undefined :
  let this := service_at example_url (failing_transport not_found_error) in
  let r := next (getStatusGenerator (JStr "unit-1") 1000) (this, fresh_world) in
  fst (fst r) = Normal (Yield JUndefined)
  /\ fst (fst r) <> Normal (Yield status_404).
Proof.
  vm_compute. split; [reflexivity | discriminate].
Qed.

(** ** Further properties of the dispatcher *)

(** The three ways a dispatcher call ends. *)
Lemma analyticRequest_cases (method url : string) (data : jsval)
    (this : AnalyticService) (w : World) :
  let request := build_request this method url data in
  (exists d,
     http this (length (requests w)) request = Resolved d
     /\ _analyticRequest method url data (this, w)
        = (Normal d, (set_isUp true this, push_request request w)))
  \/ (exists error,
        http this (length (requests w)) request = Rejected error
        /\ connectivity_failure error = false
        /\ _analyticRequest method url data (this, w)
           = (Normal JUndefined, (set_isUp true this, push_request request w)))
  \/ (exists error w',
        http this (length (requests w)) request = Rejected error
        /\ connectivity_failure error = true
        /\ _analyticRequest method url data (this, w)
           = (Throw (mk_error KError ("Fetching error: " +:+ pretty (status error))),
              (set_isUp false (alerted NOT_AVAILABLE (connectivity_message error this) this),
               w'))
        /\ console w' = console w
        /\ requests w' = request :: requests w
        /\ clock w' = clock w).
Proof.
  intros request.
  destruct (http this (length (requests w)) request) as [d|error] eqn:H.
  - left. exists d. split; [reflexivity|].
    apply analyticRequest_answered. exact H.
  - destruct (connectivity_failure error) eqn:Hc.
    + right. right.
      destruct (analyticRequest_unreachable method url data this w error H Hc)
        as (w' & Hrun & _ & Hco & Hrq & Hck & _).
      exists error, w'. auto 10.
    + right. left. exists error. split; [reflexivity|]. split; [exact Hc|].
      apply (analyticRequest_reachable method url data this w error H Hc).
Qed.

(** Every dispatcher call logs the request it built. *)
Lemma analyticRequest_logs_request (method url : string) (data : jsval)
    (this : AnalyticService) (w : World) :
  requests (world_after (_analyticRequest method url data (this, w)))
  = build_request this method url data :: requests w.
Proof.
  destruct (analyticRequest_cases method url data this w)
    as [(d & _ & Hrun) | [(e & _ & _ & Hrun) | (e & w' & _ & _ & Hrun & _ & Hrq & _)]];
    rewrite Hrun; unfold world_after; cbn [fst snd]; [reflexivity | reflexivity | exact Hrq].
Qed.

(** X1: whatever the outcome, a dispatcher call hands exactly one request
    to the transport: the endpoint followed by the path, with the payload
    as [params] for [get] and [delete] and as [data] for [post] and
    [patch]. *)
Theorem dispatcher_sends_one_request (url : string) (payload : jsval)
    (this : AnalyticService) (w : World) :
  let target := to_js_string (_hasticDatasourceURL this) +:+ url in
  requests (world_after (get url payload (this, w)))
  = mk_request "GET" target (Some payload) None :: requests w
  /\ requests (world_after (delete url payload (this, w)))
     = mk_request "DELETE" target (Some payload) None :: requests w
  /\ requests (world_after (post url payload (this, w)))
     = mk_request "POST" target None (Some payload) :: requests w
  /\ requests (world_after (patch url payload (this, w)))
     = mk_request "PATCH" target None (Some payload) :: requests w.
Proof.
  intros target.
  unfold get, delete, post, patch. rewrite !analyticRequest_logs_request. repeat split.
Qed.



(** X3: a request the transport answers returns the body of the
    response and sets [isUp], and does nothing else: no event is emitted,
    and the recorded availability of the instance and the registry stay as
    they were, also when they say [NOT_AVAILABLE]. *)
Theorem answered_request_leaves_availability (method url : string) (data d : jsval)
    (this : AnalyticService) (w : World) :
  http this (length (requests w)) (build_request this method url data) = Resolved d ->
  let r := _analyticRequest method url data (this, w) in
  fst r = Normal d
  /\ _isUp (this_after r) = true
  /\ hasticDatasourceStatus (this_after r) = hasticDatasourceStatus this
  /\ emitted w (world_after r) = []
  /\ hasticDatasourcesAvailability (world_after r) = hasticDatasourcesAvailability w
  /\ window_status (world_after r) = window_status w.
Proof.
  intros H r. subst r.
  rewrite (analyticRequest_answered method url data this w d H).
  unfold this_after, world_after. cbn [fst snd]. repeat split.
  apply emitted_app. reflexivity.
Qed.

Lemma answered_request_leaves_availability_witness :
  let this := service_at example_url (answering_transport (JNum 7)) in
  let r := _analyticRequest "GET" "/x" JUndefined (this, world_known_down) in
  fst r = Normal (JNum 7)
  /\ recorded example_url (world_after r) = Some NOT_AVAILABLE.
Proof.
  intros this r.
  destruct (answered_request_leaves_availability "GET" "/x" JUndefined (JNum 7)
              this world_known_down eq_refl) as (Hr & _ & _ & _ & Hreg & _).
  split; [exact Hr|]. unfold recorded. fold r in Hreg. rewrite Hreg. reflexivity.
Defined.

(** X4: no dispatcher call, however it ends, changes the endpoint, the
    transport or the [testing] flag of the instance, writes to the console
    or lets time pass. *)
Theorem dispatcher_frame (method url : string) (data : jsval)
    (this : AnalyticService) (w : World) :
  let r := _analyticRequest method url data (this, w) in
  _hasticDatasourceURL (this_after r) = _hasticDatasourceURL this
  /\ http (this_after r) = http this
  /\ testing (hasticDatasourceStatus (this_after r)) = testing (hasticDatasourceStatus this)
  /\ console (world_after r) = console w
  /\ clock (world_after r) = clock w.
Proof.
  intros r. subst r.
  destruct (analyticRequest_cases method url data this w)
    as [(d & _ & Hrun) | [(e & _ & _ & Hrun) | (e & w' & _ & _ & Hrun & Hco & _ & Hck)]];
    rewrite Hrun; unfold this_after, world_after; cbn [fst snd]; repeat split; assumption.
Qed.

(** ** Operations built on the dispatcher *)

Lemma bind_get_resolved {A} (method url : string) (data d : jsval) (k : jsval -> M A)
    (this : AnalyticService) (w : World) :
  fst (_analyticRequest method url data (this, w)) = Normal d ->
  exists st1,
    _analyticRequest method url data (this, w) = (Normal d, st1)
    /\ bind (_analyticRequest method url data) k (this, w) = k d st1.
Proof.
  intros H. unfold bind.
  destruct (_analyticRequest method url data (this, w)) as [c st1].
  cbn [fst] in H. subst c. exists st1. split; reflexivity.
Qed.


(** X5: when the dispatcher resolves to [undefined] (a response without
    body, or a server error it suppressed such as a 404), the read
    operations fall back to an empty value instead of failing:
    [getAnalyticUnitTypes] and [exportPanel] to the empty object,
    [getAnalyticUnits] to the empty array, [getHSR] to [null] and
    [getServerInfo] to the information of an unknown server. *)
Theorem read_operations_default (this : AnalyticService) (w : World)
    (HasticServerInfoUnknown : HasticServerInfo) :
  (forall url p, fst (get url p (this, w)) = Normal JUndefined) ->
  fst (getAnalyticUnitTypes (this, w)) = Normal (JObj [])
  /\ (forall panelId, fst (getAnalyticUnits panelId (this, w)) = Normal (JArr []))
  /\ (forall panelId, fst (exportPanel panelId (this, w)) = Normal (JObj []))
  /\ (forall id from to, fst (getHSR id from to (this, w)) = Normal JNull)
  /\ fst (getServerInfo HasticServerInfoUnknown (this, w)) = Normal HasticServerInfoUnknown.
Proof.
  intros H.
  assert (Hk : forall A url p (k : jsval -> M A),
             bind (get url p) k (this, w)
             = k JUndefined (snd (get url p (this, w)))).
  { intros A url p k. unfold get in *.
    destruct (bind_get_resolved "GET" url p JUndefined k this w (H url p))
      as (st1 & Hrun & Hb). rewrite Hb, Hrun. reflexivity. }
  unfold getAnalyticUnitTypes, getAnalyticUnits, exportPanel, getHSR, getServerInfo.
  repeat split; intros; rewrite Hk; reflexivity.
Qed.

Lemma read_operations_default_witness :
  let this := service_at example_url (failing_transport not_found_error) in
  fst (getAnalyticUnits (JStr "panel-1") (this, fresh_world)) = Normal (JArr []).
Proof.
  intros this.
  exact (proj1 (proj2 (read_operations_default this fresh_world sample_unknown_info
                         (fun url p => eq_refl))) (JStr "panel-1")).
Defined.



(** The state after a dispatcher call followed by a field read is the
    state after the call. *)
Lemma bind_lift_world (method url : string) (data : jsval)
    (f : jsval -> completion jsval) (st : state) :
  world_after (bind (_analyticRequest method url data) (fun x => lift (f x)) st)
  = world_after (_analyticRequest method url data st).
Proof.
  unfold bind, lift, world_after.
  destruct (_analyticRequest method url data st) as [[v|e] st1]; reflexivity.
Qed.

(** X7: [postNewAnalyticUnit] resolves to whatever the [id] field of the
    response is, unchecked: a response without [id] resolves to
    [undefined], while a response that is itself [undefined] (a server
    error the dispatcher suppressed) or [null] raises a [TypeError]. *)
Theorem postNewAnalyticUnit_response (analyticUnit : AnalyticUnit) (metric : MetricExpanded)
    (datasource grafanaUrl panelId response : jsval)
    (this : AnalyticService) (w : World) :
  (forall payload, fst (post "/analyticUnits" payload (this, w)) = Normal response) ->
  let r := postNewAnalyticUnit analyticUnit metric datasource grafanaUrl panelId (this, w) in
  fst r = get_field response "id"
  /\ (is_nullish response = true ->
      exists e, fst r = Throw e /\ err_kind e = KTypeError)
  /\ (forall fields, response = JObj fields -> fst r = Normal (assoc "id" fields)).
Proof.
  intros H r.
  assert (Hr : fst r = get_field response "id").
  { subst r. unfold postNewAnalyticUnit, post in *.
    match goal with
    | |- context [_analyticRequest "POST" "/analyticUnits" ?p] =>
        destruct (bind_get_resolved "POST" "/analyticUnits" p response
                    (fun x => lift (get_field x "id")) this w (H p)) as (st1 & _ & Hb)
    end.
    cbv zeta. rewrite Hb. reflexivity. }
  split; [exact Hr|]. rewrite Hr. split.
  - intros Hn. destruct response; try discriminate Hn; eexists; split; reflexivity.
  - intros fields ->. reflexivity.
Qed.

Lemma postNewAnalyticUnit_response_witness :
  let this := service_at example_url (failing_transport not_found_error) in
  exists e,
    fst (postNewAnalyticUnit (mk_unit JUndefined JUndefined [ ("name", JStr "cpu") ])
           (mk_metric JNull) JNull (JStr "http://grafana") (JStr "panel-1")
           (this, fresh_world)) = Throw e
    /\ err_kind e = KTypeError.
Proof.
  intros this.
  exact (proj1 (proj2 (postNewAnalyticUnit_response
           (mk_unit JUndefined JUndefined [ ("name", JStr "cpu") ]) (mk_metric JNull)
           JNull (JStr "http://grafana") (JStr "panel-1") JUndefined this fresh_world
           (fun payload => eq_refl))) eq_refl).
Defined.

Lemma assoc_set_field_eq (k : string) (v : jsval) (l : list (string * jsval)) :
  assoc k (set_field k v l) = v.
Proof.
  induction l as [|[k' v'] l IH]; cbn [set_field assoc].
  - rewrite String.eqb_refl. reflexivity.
  - destruct (String.eqb k k') eqn:E; cbn [assoc].
    + rewrite String.eqb_refl. reflexivity.
    + rewrite E. exact IH.
Qed.

Lemma assoc_set_field_ne (k k0 : string) (v : jsval) (l : list (string * jsval)) :
  k <> k0 -> assoc k0 (set_field k v l) = assoc k0 l.
Proof.
  intros Hne.
  assert (Hk : String.eqb k0 k = false)
    by (apply String.eqb_neq; congruence).
  induction l as [|[k' v'] l IH]; cbn [set_field assoc].
  - rewrite Hk. reflexivity.
  - destruct (String.eqb k k') eqn:E; cbn [assoc].
    + apply String.eqb_eq in E. subst k'. rewrite Hk. reflexivity.
    + rewrite IH. reflexivity.
Qed.

Lemma assoc_spread_other (k : string) (extra base : list (string * jsval)) :
  ~ In k (map fst extra) -> assoc k (spread base extra) = assoc k base.
Proof.
  unfold spread. revert base.
  induction extra as [|[k1 v1] extra IH]; intros base Hn; [reflexivity|].
  cbn [fold_left fst snd]. rewrite IH.
  - apply assoc_set_field_ne. intros ->. apply Hn. left. reflexivity.
  - intros Hin. apply Hn. right. exact Hin.
Qed.

Lemma assoc_spread_own (k : string) (v : jsval) (extra base : list (string * jsval)) :
  List.NoDup (map fst extra) -> In (k, v) extra -> assoc k (spread base extra) = v.
Proof.
  unfold spread. revert base.
  induction extra as [|[k1 v1] extra IH]; intros base Hnd Hin; [destruct Hin|].
  cbn [fold_left fst snd]. cbn [map fst] in Hnd. inversion Hnd as [|? ? Hnot Hnd']; subst.
  destruct Hin as [Heq | Hin].
  - inversion Heq; subst.
    fold (spread (set_field k v base) extra).
    rewrite assoc_spread_other by exact Hnot.
    apply assoc_set_field_eq.
  - apply IH; assumption.
Qed.

(** X8: [postNewAnalyticUnit] posts one object to [/analyticUnits] in
    which the fields of the unit's JSON take precedence: a key the unit
    defines carries the unit's value, also when it is one of [grafanaUrl],
    [panelId], [metric] and [datasource], and these four keep the values
    of the call when the unit does not define them. *)
Theorem postNewAnalyticUnit_payload (analyticUnit : AnalyticUnit) (metric : MetricExpanded)
    (datasource grafanaUrl panelId : jsval) (this : AnalyticService) (w : World) :
  List.NoDup (map fst (unit_toJSON analyticUnit)) ->
  exists payload,
    requests (world_after
      (postNewAnalyticUnit analyticUnit metric datasource grafanaUrl panelId (this, w)))
    = mk_request "POST" (to_js_string (_hasticDatasourceURL this) +:+ "/analyticUnits")
        None (Some (JObj payload)) :: requests w
    /\ (forall k v, In (k, v) (unit_toJSON analyticUnit) -> assoc k payload = v)
    /\ (forall k, ~ In k (map fst (unit_toJSON analyticUnit)) ->
         assoc k payload
         = assoc k [ ("grafanaUrl", grafanaUrl); ("panelId", panelId);
                     ("metric", metric_toJSON metric); ("datasource", datasource) ]).
Proof.
  intros Hnd. eexists. split; [|split].
  - unfold postNewAnalyticUnit, post. cbv zeta.
    rewrite bind_lift_world, analyticRequest_logs_request. reflexivity.
  - intros k v Hin. apply assoc_spread_own; assumption.
  - intros k Hn. apply assoc_spread_other. exact Hn.
Qed.

Lemma postNewAnalyticUnit_payload_witness :
  let unit := mk_unit JUndefined JUndefined
                [ ("name", JStr "cpu"); ("panelId", JStr "from-unit") ] in
  exists payload,
    requests (world_after
      (postNewAnalyticUnit unit (mk_metric JNull) JNull (JStr "http://grafana")
         (JStr "panel-1")
         (service_at example_url (answering_transport JNull), fresh_world)))
    = [ mk_request "POST" "http://localhost:8000/analyticUnits" None (Some (JObj payload)) ]
    /\ assoc "panelId" payload = JStr "from-unit"
    /\ assoc "grafanaUrl" payload = JStr "http://grafana".
Proof.
  intros unit.
  destruct (postNewAnalyticUnit_payload unit (mk_metric JNull) JNull
              (JStr "http://grafana") (JStr "panel-1")
              (service_at example_url (answering_transport JNull)) fresh_world)
    as (payload & Hreq & Hown & Hother).
  - cbn [unit_toJSON map fst unit].
    apply List.NoDup_cons; [intros [H|[]]; discriminate H|].
    apply List.NoDup_cons; [intros []|]. apply List.NoDup_nil.
  - exists payload. split; [exact Hreq|]. split.
    + apply Hown. right. left. reflexivity.
    + rewrite Hother; [reflexivity|].
      cbn [unit_toJSON map fst unit]. intros [H|[H|[]]]; discriminate H.
Defined.

(** X9: the request [runDetect] sends always carries an array under
    [ids]: the array it was given, or the one-element array of the single
    id it was given. *)
Theorem runDetect_sends_array (ids from to : jsval) (this : AnalyticService) (w : World) :
  exists items,
    requests (world_after (runDetect ids from to (this, w)))
    = mk_request "POST" (to_js_string (_hasticDatasourceURL this) +:+ "/analyticUnits/detect")
        None (Some (JObj [ ("ids", JArr items); ("from", from); ("to", to) ]))
      :: requests w
    /\ (isArray ids = false -> items = [ ids ])
    /\ (forall l, ids = JArr l -> items = l).
Proof.
  unfold runDetect, post. cbv zeta. rewrite analyticRequest_logs_request.
  destruct ids; cbn [isArray negb];
    try (eexists; split; [reflexivity|]; split; [reflexivity | intros l Hl; discriminate Hl]).
  exists items. split; [reflexivity|]. split; [discriminate|].
  intros l Hl. inversion Hl. reflexivity.
Qed.

(** X10: [getServerInfo] reads the two git fields through the [git]
    object of the response: a response without [git] raises a
    [TypeError] although all other fields could be read; with a [git]
    value the eight fields are taken from the response as they are, a
    missing one being [undefined]. *)
Theorem getServerInfo_fields (HasticServerInfoUnknown : HasticServerInfo)
    (fields : list (string * jsval)) (this : AnalyticService) (w : World) :
  fst (get "/" JUndefined (this, w)) = Normal (JObj fields) ->
  let r := getServerInfo HasticServerInfoUnknown (this, w) in
  (is_nullish (assoc "git" fields) = true ->
     exists e, fst r = Throw e /\ err_kind e = KTypeError)
  /\ (is_nullish (assoc "git" fields) = false ->
      fst r = Normal (mk_info (assoc "nodeVersion" fields) (assoc "packageVersion" fields)
                        (assoc "npmUserAgent" fields) (assoc "docker" fields)
                        (assoc "zmqConectionString" fields) (assoc "serverPort" fields)
                        (read (assoc "git" fields) "branch")
                        (read (assoc "git" fields) "commitHash"))).
Proof.
  intros H r. subst r. unfold getServerInfo, get in *.
  match goal with
  | |- context [bind (_analyticRequest "GET" "/" JUndefined) ?k] =>
      destruct (bind_get_resolved "GET" "/" JUndefined (JObj fields) k this w H)
        as (st1 & _ & Hb)
  end.
  rewrite Hb. cbn [is_undefined]. unfold bind, lift, ret, read. cbn [get_field].
  split; intros Hg; destruct (assoc "git" fields); try discriminate Hg;
    cbn [get_field fst]; try reflexivity; eexists; split; reflexivity.
Qed.

Lemma getServerInfo_fields_witness :
  let this := service_at example_url
                (answering_transport (JObj [ ("packageVersion", JStr "0.3.6") ])) in
  exists e,
    fst (getServerInfo sample_unknown_info (this, fresh_world)) = Throw e
    /\ err_kind e = KTypeError.
Proof.
  intros this.
  exact (proj1 (getServerInfo_fields sample_unknown_info
                  [ ("packageVersion", JStr "0.3.6") ] this fresh_world eq_refl) eq_refl).
Defined.

(** ** Segments and detection spans *)

Lemma get_field_read (s : jsval) (k : string) :
  is_nullish s = false -> get_field s k = Normal (read s k).
Proof.
  intros H. unfold read. destruct s; try discriminate H; reflexivity.
Qed.

(** A continuation that only computes leaves the state of the call
    before it. *)
Lemma bind_pure_world {A B} (m : M A) (k : A -> M B) (st : state) :
  (forall x st1, snd (k x st1) = st1) ->
  world_after (bind m k st) = world_after (m st).
Proof.
  intros H. unfold bind, world_after.
  destruct (m st) as [[a|e] st1]; [rewrite H; reflexivity | reflexivity].
Qed.

Lemma mapM_all_ok {A B} (f : A -> M B) (g : A -> B) (P : A -> Prop)
    (items : list A) (st : state) :
  (forall s st1, P s -> f s st1 = (Normal (g s), st1)) ->
  Forall P items ->
  mapM f items st = (Normal (map g items), st).
Proof.
  intros Hf Hall. induction Hall as [|s items Hs Hall IH]; [reflexivity|].
  cbn [mapM map]. unfold bind. rewrite (Hf s st Hs), IH. reflexivity.
Qed.

Lemma mapM_some_fail {A B} (f : A -> M B) (bad : A -> bool) (Q : js_error -> Prop)
    (items : list A) (st : state) :
  (forall s st1, bad s = true -> exists e, f s st1 = (Throw e, st1) /\ Q e) ->
  (forall s st1, bad s = false -> exists y, f s st1 = (Normal y, st1)) ->
  Exists (fun s => bad s = true) items ->
  exists e, mapM f items st = (Throw e, st) /\ Q e.
Proof.
  intros Hbad Hgood. induction items as [|s items IH]; intros Hex.
  - inversion Hex.
  - cbn [mapM]. unfold bind.
    destruct (bad s) eqn:Hs.
    + destruct (Hbad s st Hs) as (e & He & Hq). rewrite He. eauto.
    + destruct (Hgood s st Hs) as (y & Hy). rewrite Hy.
      inversion Hex as [? ? Hs' | ? ? Hex']; subst; [congruence|].
      destruct (IH Hex') as (e & He & Hq). rewrite He. eauto.
Qed.

(** X11: [getSegments] turns the items of the [segments] array into
    segments one by one and in order, reading [labeled], [id], [from],
    [to] and [deleted] of each item (an empty array gives no segment);
    an item that is [undefined] or [null], or a [segments] value that is
    not an array, raises a [TypeError]. *)
Theorem getSegments_maps_items (id from to d : jsval) (this : AnalyticService) (w : World) :
  is_undefined id = false ->
  (forall p, fst (get "/segments" p (this, w)) = Normal d) ->
  let r := getSegments id from to (this, w) in
  (forall items,
     get_field d "segments" = Normal (JArr items) ->
     (Forall (fun s => is_nullish s = false) items ->
      fst r = Normal (map segment_of items))
     /\ (Exists (fun s => is_nullish s = true) items ->
         exists e, fst r = Throw e /\ err_kind e = KTypeError))
  /\ (forall v,
        get_field d "segments" = Normal v -> is_undefined v = false -> isArray v = false ->
        exists e, fst r = Throw e /\ err_kind e = KTypeError).
Proof.
  intros Hid Hget r. subst r. unfold getSegments. rewrite Hid. unfold get in *.
  match goal with
  | |- context [bind (_analyticRequest "GET" "/segments" ?p) ?k] =>
      destruct (bind_get_resolved "GET" "/segments" p d k this w (Hget p))
        as (st1 & _ & Hb)
  end.
  rewrite Hb. clear Hb.
  split.
  - intros items Hf. rewrite Hf. split.
    + intros Hall. unfold bind at 1. unfold lift at 1. cbn [is_undefined].
      erewrite mapM_all_ok; [reflexivity | | exact Hall].
      intros s st2 Hs. cbn beta in Hs. unfold bind, lift, ret.
      rewrite !(get_field_read s _ Hs). reflexivity.
    + intros Hex. unfold bind at 1. unfold lift at 1. cbn [is_undefined].
      match goal with
      | |- context [mapM ?f items st1] =>
          destruct (mapM_some_fail f is_nullish (fun e => err_kind e = KTypeError)
                      items st1) as (e & He & Hk)
      end.
      * intros s st2 Hs. unfold bind, lift.
        destruct s; try discriminate Hs; eexists; split; reflexivity.
      * intros s st2 Hs. unfold bind, lift, ret.
        rewrite !(get_field_read s _ Hs). eexists. reflexivity.
      * exact Hex.
      * rewrite He. exists e. split; [reflexivity | exact Hk].
  - intros v Hf Hv Ha. rewrite Hf. unfold bind at 1. unfold lift at 1. rewrite Hv.
    destruct v; try discriminate Hv; try discriminate Ha; eexists; split; reflexivity.
Qed.

Lemma getSegments_maps_items_witness :
  let item := JObj [ ("id", JStr "s1"); ("from", JNum 10); ("to", JNum 20);
                     ("labeled", JBool true); ("deleted", JBool false) ] in
  let this := service_at example_url
                (answering_transport (JObj [ ("segments", JArr [ item ]) ])) in
  fst (getSegments (JStr "unit-1") JUndefined JUndefined (this, fresh_world))
  = Normal [ new_AnalyticSegment (JBool true) (JStr "s1") (JNum 10) (JNum 20)
               (JBool false) ].
Proof.
  intros item this.
  refine (proj1 (proj1 (getSegments_maps_items (JStr "unit-1") JUndefined JUndefined
                          (JObj [ ("segments", JArr [ item ]) ]) this fresh_world
                          eq_refl (fun p => eq_refl)) [ item ] eq_refl) _).
  constructor; [reflexivity | constructor].
Defined.

(** X12: [getSegments] and [getDetectionSpans] refuse an [undefined] id
    before anything is sent: the instance and the world stay as they
    were. [updateSegments] has no such guard and sends its request with
    the [undefined] id. *)
Theorem undefined_id_guards (from to : jsval) (added removed : list AnalyticSegment)
    (this : AnalyticService) (w : World) :
  getSegments JUndefined from to (this, w)
  = (Throw (mk_error KError "id is undefined"), (this, w))
  /\ getDetectionSpans JUndefined from to (this, w)
     = (Throw (mk_error KError "id is undefined"), (this, w))
  /\ exists data,
       requests (world_after (updateSegments JUndefined added removed (this, w)))
       = mk_request "PATCH" (to_js_string (_hasticDatasourceURL this) +:+ "/segments")
           None (Some (JObj data)) :: requests w
       /\ assoc "id" data = JUndefined.
Proof.
  split; [reflexivity|]. split; [reflexivity|].
  eexists. split.
  - unfold updateSegments, patch. cbv zeta.
    rewrite bind_pure_world.
    + rewrite analyticRequest_logs_request. reflexivity.
    + intros x st1. unfold bind, lift.
      destruct (get_field x "addedIds") as [v|e]; [|reflexivity].
      destruct (is_undefined v); reflexivity.
  - reflexivity.
Qed.

(** X13: the request of [updateSegments] is one [PATCH] of [/segments]
    whose [addedSegments] has one entry per added segment, in order, with
    its [from], [to], [labeled] and [deleted] but never its [id], and
    whose [removedSegments] are the ids of the removed segments. *)
Theorem updateSegments_payload (id : jsval) (added removed : list AnalyticSegment)
    (this : AnalyticService) (w : World) :
  exists entries,
    requests (world_after (updateSegments id added removed (this, w)))
    = mk_request "PATCH" (to_js_string (_hasticDatasourceURL this) +:+ "/segments")
        None
        (Some (JObj [ ("id", id); ("addedSegments", JArr entries);
                      ("removedSegments", JArr (map seg_id removed)) ]))
      :: requests w
    /\ List.Forall2
         (fun entry segment =>
            read entry "from" = seg_from segment
            /\ read entry "to" = seg_to segment
            /\ read entry "labeled" = seg_labeled segment
            /\ read entry "deleted" = seg_deleted segment
            /\ read entry "id" = JUndefined)
         entries added.
Proof.
  eexists. split.
  - unfold updateSegments, patch. cbv zeta.
    rewrite bind_pure_world.
    + rewrite analyticRequest_logs_request. reflexivity.
    + intros x st1. unfold bind, lift.
      destruct (get_field x "addedIds") as [v|e]; [|reflexivity].
      destruct (is_undefined v); reflexivity.
  - induction added as [|s added IH]; cbn [map]; constructor.
    + repeat split.
    + exact IH.
Qed.

(** X14: when the response carries the field, it is returned as it is,
    without a look at its shape: [updateSegments] resolves to the
    [addedIds] of the response and [getDetectionSpans] to its [spans]. *)
Theorem present_field_is_returned (d v : jsval) (this : AnalyticService) (w : World) :
  is_undefined v = false ->
  (forall id added removed,
     (forall p, fst (patch "/segments" p (this, w)) = Normal d) ->
     get_field d "addedIds" = Normal v ->
     fst (updateSegments id added removed (this, w)) = Normal v)
  /\ (forall id from to,
        is_undefined id = false ->
        (forall p, fst (get "/detections/spans" p (this, w)) = Normal d) ->
        get_field d "spans" = Normal v ->
        fst (getDetectionSpans id from to (this, w)) = Normal v).
Proof.
  intros Hv. split.
  - intros id added removed Hp Hf. unfold updateSegments, patch in *. cbv zeta.
    match goal with
    | |- context [bind (_analyticRequest "PATCH" "/segments" ?p) ?k] =>
        destruct (bind_get_resolved "PATCH" "/segments" p d k this w (Hp p))
          as (st1 & _ & Hb)
    end.
    rewrite Hb. unfold bind, lift. rewrite Hf, Hv. reflexivity.
  - intros id from to Hid Hg Hf. unfold getDetectionSpans, get in *. rewrite Hid.
    match goal with
    | |- context [bind (_analyticRequest "GET" "/detections/spans" ?p) ?k] =>
        destruct (bind_get_resolved "GET" "/detections/spans" p d k this w (Hg p))
          as (st1 & _ & Hb)
    end.
    rewrite Hb.
    assert (Hd : is_undefined d = false) by (destruct d; try reflexivity; discriminate Hf).
    rewrite Hd. unfold bind, lift. rewrite Hf, Hv. reflexivity.
Qed.

Lemma present_field_is_returned_witness :
  let d := JObj [ ("spans", JStr "not an array") ] in
  let this := service_at example_url (answering_transport d) in
  fst (getDetectionSpans (JStr "unit-1") (JNum 0) (JNum 5) (this, fresh_world))
  = Normal (JStr "not an array").
Proof.
  intros d this.
  exact (proj2 (present_field_is_returned d (JStr "not an array") this fresh_world eq_refl)
           (JStr "unit-1") (JNum 0) (JNum 5) eq_refl (fun p => eq_refl) eq_refl).
Defined.

(** ** Polling, step after step *)

Lemma elements_yields {T} (vs : list T) :
  elements (map (fun v => Normal (Yield v)) vs) = vs.
Proof. induction vs as [|v vs IH]; [reflexivity|]. cbn [map elements]. rewrite IH. reflexivity. Qed.

(** X15: a poll never retries: once a step has raised, whatever the
    fetch function and wherever the sequence stood, every later step
    reports the end of the sequence and leaves the instance and the world
    alone. *)
Theorem poll_ends_after_failure {T} (g : generator T) (st : state) (e : js_error) (n : nat) :
  fst (fst (next g st)) = Throw e ->
  let g1 := snd (fst (next g st)) in
  let st1 := snd (next g st) in
  iterate n g1 st1 = (repeat (Normal Done) n, g1, st1)
  /\ elements (fst (fst (iterate n g1 st1))) = [].
Proof.
  intros H g1 st1.
  assert (Hpos : gen_position g1 = GenCompleted).
  { subst g1. revert H. unfold next, yield_await_func.
    destruct (gen_position g).
    - destruct (is_undefined (gen_id g)); [reflexivity|].
      destruct (gen_func g (gen_id g) (gen_args g) st) as [[v|e0] st']; [discriminate | reflexivity].
    - destruct (timeout (gen_duration g) st) as [c st0].
      destruct (gen_func g (gen_id g) (gen_args g) st0) as [[v|e0] st']; [discriminate | reflexivity].
    - discriminate. }
  rewrite (iterate_completed n g1 st1 Hpos). split; [reflexivity|].
  apply elements_done.
Qed.

Lemma poll_ends_after_failure_witness :
  let this := service_at example_url (failing_transport bad_gateway_error) in
  let g := getStatusGenerator (JStr "unit-1") 1000 in
  elements (fst (fst (iterate 3 (snd (fst (next g (this, fresh_world))))
                        (snd (next g (this, fresh_world)))))) = [].
Proof.
  intros this g.
  exact (proj2 (poll_ends_after_failure g (this, fresh_world)
                  (mk_error KError "Fetching error: 502") 3 eq_refl)).
Defined.

Section PollInvariant.

Context {T : Type}.
Variables (id : jsval) (duration : Z) (func : jsval -> list jsval -> M T)
          (args : list jsval).

(** [I k s st]: the state [st] after [k] fetches and [s] sleeps. *)
Variable I : nat -> nat -> state -> Prop.

Hypothesis id_defined : is_undefined id = false.
Hypothesis fetch_step :
  forall k s st, I k s st ->
    exists v st', func id args st = (Normal v, st') /\ I (S k) s st'.
Hypothesis sleep_step :
  forall k s st, I k s st ->
    I k (S s) (fst st, advance_clock (setTimeout_delay duration) (snd st)).

Lemma iterate_suspended (n k s : nat) (st : state) :
  I k s st ->
  exists vs st',
    iterate n (mk_generator id duration func args GenSuspended) st
    = (map (fun v => Normal (Yield v)) vs,
       mk_generator id duration func args GenSuspended, st')
    /\ length vs = n
    /\ I (k + n) (s + n) st'.
Proof.
  revert k s st. induction n as [|n IH]; intros k s st HI.
  - exists [], st. rewrite !Nat.add_0_r. repeat split. exact HI.
  - destruct (fetch_step k (S s) _ (sleep_step k s st HI)) as (v & st1 & Hf & HI1).
    destruct (IH (S k) (S s) st1 HI1) as (vs & st' & Hit & Hlen & HI').
    exists (v :: vs), st'. split; [|split].
    + cbn [iterate]. unfold next. cbn [gen_position gen_duration].
      unfold timeout, modify_world, yield_await_func. cbn [gen_func gen_id gen_args].
      rewrite Hf. unfold move_to. cbn [gen_id gen_duration gen_func gen_args].
      rewrite Hit. reflexivity.
    + cbn [length]. rewrite Hlen. reflexivity.
    + replace (k + S n)%nat with (S k + n)%nat by lia.
      replace (s + S n)%nat with (S s + n)%nat by lia. exact HI'.
Qed.

(** A poll whose fetch never fails: [S n] steps yield [S n] elements
    after [S n] fetches and [n] sleeps, and the sequence is still
    suspended. *)
Lemma iterate_yields (n : nat) (st : state) :
  I 0 0 st ->
  exists vs g' st',
    iterate (S n) (getGenerator id duration func args) st
    = (map (fun v => Normal (Yield v)) vs, g', st')
    /\ length vs = S n
    /\ gen_position g' = GenSuspended
    /\ I (S n) n st'.
Proof.
  intros HI.
  destruct (fetch_step 0 0 st HI) as (v & st1 & Hf & HI1).
  destruct (iterate_suspended n 1 0 st1 HI1) as (vs & st' & Hit & Hlen & HI').
  exists (v :: vs), (mk_generator id duration func args GenSuspended), st'.
  split; [|split; [|split]].
  - cbn [iterate]. unfold next, getGenerator. cbn [gen_position gen_id].
    rewrite id_defined. unfold yield_await_func. cbn [gen_func gen_id gen_args].
    rewrite Hf. unfold move_to. cbn [gen_id gen_duration gen_func gen_args].
    rewrite Hit. reflexivity.
  - cbn [length]. rewrite Hlen. reflexivity.
  - reflexivity.
  - exact HI'.
Qed.

End PollInvariant.

Lemma build_request_same_endpoint (this this' : AnalyticService) (method url : string)
    (data : jsval) :
  _hasticDatasourceURL this' = _hasticDatasourceURL this ->
  build_request this' method url data = build_request this method url data.
Proof. intros H. unfold build_request. rewrite H. reflexivity. Qed.

Lemma setTimeout_delay_in_range (duration : Z) :
  (0 <= duration < 2 ^ 31)%Z -> setTimeout_delay duration = duration.
Proof.
  intros H. unfold setTimeout_delay, ToInt32.
  rewrite Z.mod_small by lia. lia.
Qed.

(** X16: with a transport that answers every request, [S n] steps of
    the status poll of a defined id yield [S n] elements and leave the
    sequence suspended, ready for more; they send [S n] times the same
    [GET] of [/analyticUnits/status], and wait [n] times the delay that
    [setTimeout] arms for the duration: the first element comes without
    delay. That delay is the duration itself when it fits a 32-bit signed
    integer and is not negative; a duration of [2 ^ 31] arms no delay at
    all. *)
Theorem status_poll_steps (id : jsval) (duration : Z) (this : AnalyticService)
    (w : World) (n : nat) :
  always_answers (http this) ->
  is_undefined id = false ->
  let request := build_request this "GET" "/analyticUnits/status" (JObj [ ("id", id) ]) in
  let run := iterate (S n) (getStatusGenerator id duration) (this, w) in
  length (elements (fst (fst run))) = S n
  /\ length (fst (fst run)) = S n
  /\ gen_position (snd (fst run)) = GenSuspended
  /\ requests (snd (snd run)) = repeat request (S n) ++ requests w
  /\ clock (snd (snd run)) = (clock w + Z.of_nat n * setTimeout_delay duration)%Z
  /\ ((0 <= duration < 2 ^ 31)%Z ->
      clock (snd (snd run)) = (clock w + Z.of_nat n * duration)%Z)
  /\ (duration = (2 ^ 31)%Z -> clock (snd (snd run)) = clock w).
Proof.
  intros Hans Hid request run.
  set (I := fun (k s : nat) (st : state) =>
              http (fst st) = http this
              /\ _hasticDatasourceURL (fst st) = _hasticDatasourceURL this
              /\ requests (snd st) = repeat request k ++ requests w
              /\ clock (snd st) = (clock w + Z.of_nat s * setTimeout_delay duration)%Z).
  destruct (iterate_yields id duration (fun id _ => statusFetch id) [] I Hid) with
    (n := n) (st := (this, w)) as (vs & g' & st' & Hit & Hlen & Hpos & HI).
  - intros k s [this1 w1] (Hh & Hu & Hrq & Hck). cbn [fst snd] in *.
    destruct (Hans (length (requests w1))
                (build_request this1 "GET" "/analyticUnits/status" (JObj [ ("id", id) ])))
      as (d & Hd).
    rewrite <- Hh in Hd.
    exists d. eexists. split.
    + rewrite statusFetch_is_get. unfold get.
      apply (analyticRequest_answered _ _ _ this1 w1 d Hd).
    + unfold I. cbn [fst snd set_isUp push_request http _hasticDatasourceURL requests clock].
      rewrite (build_request_same_endpoint this this1 _ _ _ Hu).
      repeat split; try assumption. fold request. rewrite Hrq. reflexivity.
    - intros k s [this1 w1] (Hh & Hu & Hrq & Hck). cbn [fst snd] in *.
      unfold I. cbn [fst snd advance_clock requests clock].
      repeat split; try assumption. rewrite Hck. lia.
    - unfold I. cbn [fst snd]. repeat split. cbn. lia.
    - destruct HI as (_ & _ & Hrq & Hck).
      subst run. unfold getStatusGenerator. rewrite Hit. cbn [fst snd].
      rewrite elements_yields, length_map.
      split; [assumption|]. split; [assumption|]. split; [assumption|].
      split; [assumption|]. split; [assumption|]. split.
      + intros Hd. rewrite Hck, (setTimeout_delay_in_range duration Hd). reflexivity.
      + intros ->. rewrite Hck. change (setTimeout_delay (2 ^ 31)) with 0%Z. lia.
Qed.

Lemma status_poll_steps_witness :
  let this := service_at example_url
                (answering_transport (JObj [ ("status", JStr "READY") ])) in
  clock (snd (snd (iterate 3 (getStatusGenerator (JStr "unit-1") 1000) (this, fresh_world))))
  = 2000%Z.
Proof.
  intros this.
  refine (proj1 (proj2 (proj2 (proj2 (proj2 (proj2
            (status_poll_steps (JStr "unit-1") 1000 this fresh_world 2 _ eq_refl)))))) _).
  - intros k r. eexists. reflexivity.
  - lia.
Defined.

(** X17: the detection poll asks for the same window at every step:
    with a transport that always answers with spans, the [S n] requests
    of [S n] steps are one and the same [GET] of [/detections/spans] with
    the [id], [from] and [to] the poll was created with. *)
Theorem detections_poll_fixed_window (id from to : jsval) (duration : Z)
    (this : AnalyticService) (w : World) (n : nat) :
  (forall k r, exists d v,
      http this k r = Resolved d
      /\ get_field d "spans" = Normal v /\ is_undefined v = false) ->
  is_undefined id = false ->
  let request :=
    mk_request "GET" (to_js_string (_hasticDatasourceURL this) +:+ "/detections/spans")
      (Some (JObj [ ("id", id); ("from", from); ("to", to) ])) None in
  let run := iterate (S n) (getDetectionsGenerator id from to duration) (this, w) in
  length (elements (fst (fst run))) = S n
  /\ requests (snd (snd run)) = repeat request (S n) ++ requests w.
Proof.
  intros Hans Hid request run.
  set (I := fun (k s : nat) (st : state) =>
              http (fst st) = http this
              /\ _hasticDatasourceURL (fst st) = _hasticDatasourceURL this
              /\ requests (snd st) = repeat request k ++ requests w).
  destruct (iterate_yields id duration
              (fun id args => getDetectionSpans id (nth 0 args JUndefined)
                                (nth 1 args JUndefined))
              [ from; to ] I Hid) with
    (n := n) (st := (this, w)) as (vs & g' & st' & Hit & Hlen & Hpos & HI).
  - intros k s [this1 w1] (Hh & Hu & Hrq). cbn [fst snd nth] in *.
    destruct (Hans (length (requests w1))
                (build_request this1 "GET" "/detections/spans"
                   (JObj [ ("id", id); ("from", from); ("to", to) ])))
      as (d & v & Hd & Hf & Hv).
    rewrite <- Hh in Hd.
    exists v. eexists. split.
    + unfold getDetectionSpans. rewrite Hid. unfold get, bind at 1.
      rewrite (analyticRequest_answered _ _ _ this1 w1 d Hd).
      assert (Hdd : is_undefined d = false)
        by (destruct d; try reflexivity; discriminate Hf).
      rewrite Hdd. unfold bind, lift. rewrite Hf, Hv. reflexivity.
    + unfold I. cbn [fst snd set_isUp push_request http _hasticDatasourceURL requests].
      rewrite (build_request_same_endpoint this this1 _ _ _ Hu).
      repeat split; try assumption. rewrite Hrq. reflexivity.
  - intros k s [this1 w1] (Hh & Hu & Hrq). unfold I. cbn [fst snd] in *.
    repeat split; assumption.
  - unfold I. cbn [fst snd]. repeat split.
  - destruct HI as (_ & _ & Hrq).
    subst run. unfold getDetectionsGenerator. rewrite Hit. cbn [fst snd].
    rewrite elements_yields. split; assumption.
Qed.

Lemma detections_poll_fixed_window_witness :
  let this := service_at example_url
                (answering_transport (JObj [ ("spans", JArr []) ])) in
  length (elements (fst (fst (iterate 2
            (getDetectionsGenerator (JStr "unit-1") (JNum 0) (JNum 60) 500)
            (this, fresh_world))))) = 2%nat.
Proof.
  intros this.
  refine (proj1 (detections_poll_fixed_window (JStr "unit-1") (JNum 0) (JNum 60) 500
                   this fresh_world 1 _ eq_refl)).
  intros k r. eexists. eexists. repeat split.
Defined.

(** ** The outcomes of the availability check *)

(** A dispatcher call that resolves leaves the instance up and the
    request logged, whether the transport answered or its error was
    suppressed. *)
Lemma analyticRequest_resolved_state (method url : string) (data d : jsval)
    (this : AnalyticService) (w : World) :
  fst (_analyticRequest method url data (this, w)) = Normal d ->
  _analyticRequest method url data (this, w)
  = (Normal d, (set_isUp true this, push_request (build_request this method url data) w)).
Proof.
  intros H.
  destruct (analyticRequest_cases method url data this w)
    as [(d' & _ & Hrun) | [(e & _ & _ & Hrun) | (e & w' & _ & _ & Hrun & _)]];
    rewrite Hrun in H |- *; cbn [fst] in H; inversion H; reflexivity.
Qed.

Section ProbeOutcomes.

Variable isHasticServerResponse : jsval -> bool.
Variable isSupportedServerVersion : jsval -> bool.
Variable SUPPORTED_SERVER_VERSION : string.
Variables (this : AnalyticService) (w : World) (d : jsval).

Hypothesis configured : url_missing (_hasticDatasourceURL this) = false.
Hypothesis resolved : fst (get "/" JUndefined (this, w)) = Normal d.

(** The instance and the world in which the response is examined. *)
Let this1 : AnalyticService := set_isUp true (set_status (set_testing true) this).
Let w1 : World := push_request (build_request this "GET" "/" JUndefined) w.

Lemma probe_get_state :
  _analyticRequest "GET" "/" JUndefined (set_status (set_testing true) this, w)
  = (Normal d, (this1, w1)).
Proof.
  apply (analyticRequest_resolved_state "GET" "/" JUndefined d
           (set_status (set_testing true) this) w).
  unfold get in resolved.
  destruct (analyticRequest_cases "GET" "/" JUndefined this w)
    as [(d' & Hh & Hrun) | [(e & Hh & Hc & Hrun) | (e & w' & _ & _ & Hrun & _)]];
    rewrite Hrun in resolved; cbn [fst] in resolved; inversion resolved; subst.
  - rewrite (analyticRequest_answered "GET" "/" JUndefined
               (set_status (set_testing true) this) w d Hh). reflexivity.
  - rewrite (analyticRequest_reachable "GET" "/" JUndefined
               (set_status (set_testing true) this) w e Hh Hc). reflexivity.
Qed.

(** The check when the response is examined by an alert call [st],
    [msg] and answers [b]. *)
Lemma check_with_alert (st : HasticDatasourceAvailability) (msg : list string) (b : bool) :
  (forall w2,
     _displayConnectionAlert st msg (this1, w1) = (Normal tt, (alerted st msg this1, w2)) ->
     _isDatasourceAvailable isHasticServerResponse isSupportedServerVersion
       SUPPORTED_SERVER_VERSION (set_status (set_testing true) this, w)
     = (Normal b, (alerted st msg this1, w2))) ->
  let r := checkDatasourceAvailability isHasticServerResponse isSupportedServerVersion
             SUPPORTED_SERVER_VERSION (this, w) in
  fst r = Normal b
  /\ _isUp (this_after r) = b
  /\ testing (hasticDatasourceStatus (this_after r)) = false
  /\ availability (hasticDatasourceStatus (this_after r)) = st
  /\ message (hasticDatasourceStatus (this_after r)) = join "<br /> " msg
  /\ recorded (_hasticDatasourceURL this) (world_after r) = Some st
  /\ notifications (emitted w (world_after r))
     = if bool_decide (recorded (_hasticDatasourceURL this) w = Some st)
       then [] else [notification st msg].
Proof.
  intros Hprobe r.
  destruct (displayConnectionAlert_run st msg this1 w1)
    as (w2 & Hrun & Hrec & _ & _ & _ & _ & Hev).
  specialize (Hprobe w2 Hrun).
  destruct (checkDatasourceAvailability_run isHasticServerResponse isSupportedServerVersion
              SUPPORTED_SERVER_VERSION this w) as (b0 & this' & w' & Hp & Hcheck).
  rewrite Hprobe in Hp. inversion Hp; subst b0 this' w'.
  subst r. rewrite Hcheck. unfold this_after, world_after. cbn [fst snd].
  change (appEvents w2
          = alert_events st msg (_hasticDatasourceURL this) w ++ appEvents w) in Hev.
  repeat split; try exact Hrec.
  rewrite (emitted_app w w2 _ Hev). apply notifications_alert_events.
Qed.

Lemma probe_unfold :
  _isDatasourceAvailable isHasticServerResponse isSupportedServerVersion
    SUPPORTED_SERVER_VERSION (set_status (set_testing true) this, w)
  = try_catch
      (if negb (isHasticServerResponse d) then
         displayWrongUrlAlert ;;
         ret false
       else if negb (isSupportedServerVersion d) then
         let! packageVersion := lift (get_field d "packageVersion") in
         displayUnsupportedVersionAlert SUPPORTED_SERVER_VERSION packageVersion ;;
         ret false
       else
         let! this := get_this in
         _displayConnectionAlert AVAILABLE (connected_message this) ;;
         ret true)
      (fun e => modify_world (push_console e) ;; ret false)
      (this1, w1).
Proof.
  unfold _isDatasourceAvailable, _checkDatasourceConfig.
  unfold bind at 1. unfold get_this at 1. unfold bind at 1. cbn [fst snd].
  change (_hasticDatasourceURL (set_status (set_testing true) this))
    with (_hasticDatasourceURL this).
  rewrite configured. unfold ret at 1. cbn [negb].
  unfold try_catch, get. unfold bind at 1. rewrite probe_get_state. reflexivity.
Qed.

Lemma check_recognised_and_supported :
  isHasticServerResponse d = true ->
  isSupportedServerVersion d = true ->
  forall w2,
    _displayConnectionAlert AVAILABLE (connected_message this) (this1, w1)
    = (Normal tt, (alerted AVAILABLE (connected_message this) this1, w2)) ->
    _isDatasourceAvailable isHasticServerResponse isSupportedServerVersion
      SUPPORTED_SERVER_VERSION (set_status (set_testing true) this, w)
    = (Normal true, (alerted AVAILABLE (connected_message this) this1, w2)).
Proof.
  intros Hh Hs w2 Hrun. rewrite probe_unfold, Hh, Hs. cbn [negb].
  unfold try_catch. unfold bind at 1. unfold get_this at 1. unfold bind at 1.
  cbn [fst snd].
  change (connected_message this1) with (connected_message this).
  rewrite Hrun. reflexivity.
Qed.



End ProbeOutcomes.







Lemma try_catch_bind_normal {A B} (m : M A) (k : A -> M B) (h : js_error -> M B)
    (st st1 : state) (a : A) :
  m st = (Normal a, st1) -> try_catch (bind m k) h st = try_catch (k a) h st1.
Proof. intros H. unfold try_catch, bind. rewrite H. reflexivity. Qed.

Lemma try_catch_bind_throw {A B} (m : M A) (k : A -> M B) (h : js_error -> M B)
    (st st1 : state) (e : js_error) :
  m st = (Throw e, st1) -> try_catch (bind m k) h st = h e st1.
Proof. intros H. unfold try_catch, bind. rewrite H. reflexivity. Qed.

(** X21: on return from the availability check [isUp] is the answer,
    whatever the dispatcher had left in it; the endpoint is untouched, and
    the check sent at most one request, the root [GET], and none at all
    when no endpoint is configured. *)
Theorem check_reconciles_isUp
    (isHasticServerResponse isSupportedServerVersion : jsval -> bool)
    (SUPPORTED_SERVER_VERSION : string) (this : AnalyticService) (w : World) :
  let r := checkDatasourceAvailability isHasticServerResponse isSupportedServerVersion
             SUPPORTED_SERVER_VERSION (this, w) in
  exists b,
    fst r = Normal b
    /\ _isUp (this_after r) = b
    /\ (url_missing (_hasticDatasourceURL this) = true ->
        b = false /\ requests (world_after r) = requests w)
    /\ (url_missing (_hasticDatasourceURL this) = false ->
        requests (world_after r)
        = mk_request "GET" (to_js_string (_hasticDatasourceURL this) +:+ "/")
            (Some JUndefined) None :: requests w).
Proof.
  intros r.
  destruct (checkDatasourceAvailability_run isHasticServerResponse isSupportedServerVersion
              SUPPORTED_SERVER_VERSION this w) as (b & this' & w' & Hp & Hcheck).
  subst r. rewrite Hcheck. unfold this_after, world_after. cbn [fst snd].
  exists b. split; [reflexivity|]. split; [reflexivity|].
  set (this0 := set_status (set_testing true) this) in *.
  split.
  - intros Hcfg.
    rewrite (isDatasourceAvailable_unconfigured isHasticServerResponse
               isSupportedServerVersion SUPPORTED_SERVER_VERSION this0 w Hcfg) in Hp.
    inversion Hp. split; reflexivity.
  - intros Hcfg.
    rewrite (isDatasourceAvailable_configured isHasticServerResponse
               isSupportedServerVersion SUPPORTED_SERVER_VERSION this0 w Hcfg) in Hp.
    unfold get in Hp.
    destruct (analyticRequest_cases "GET" "/" JUndefined this0 w)
      as [(d & _ & Hrun) | [(e & _ & _ & Hrun) | (e & w1 & _ & _ & Hrun & _ & Hrq & _)]].
    + rewrite (try_catch_bind_normal _ _ _ _ _ _ Hrun) in Hp.
      destruct (after_get_run isHasticServerResponse isSupportedServerVersion
                  SUPPORTED_SERVER_VERSION d (set_isUp true this0)
                  (push_request (build_request this0 "GET" "/" JUndefined) w))
        as (b1 & this1 & w2 & Ha & _ & _ & Hrq & _).
      cbv beta in Hp, Ha. rewrite Ha in Hp. inversion Hp; subst. exact Hrq.
    + rewrite (try_catch_bind_normal _ _ _ _ _ _ Hrun) in Hp.
      destruct (after_get_run isHasticServerResponse isSupportedServerVersion
                  SUPPORTED_SERVER_VERSION JUndefined (set_isUp true this0)
                  (push_request (build_request this0 "GET" "/" JUndefined) w))
        as (b1 & this1 & w2 & Ha & _ & _ & Hrq & _).
      cbv beta in Hp, Ha. rewrite Ha in Hp. inversion Hp; subst. exact Hrq.
    + rewrite (try_catch_bind_throw _ _ _ _ _ _ Hrun) in Hp.
      unfold bind, modify_world, ret in Hp. cbn [fst snd] in Hp.
      inversion Hp; subst. exact Hrq.
Qed.

(** ** The registry across endpoints *)

Lemma updateHasticUrlStatus_world (st : HasticDatasourceAvailability)
    (this : AnalyticService) (w : World) (u : maybe_string) :
  let w' := world_after (_updateHasticUrlStatus st (this, w)) in
  hasticDatasourcesAvailability w' <> None
  /\ (to_js_string u <> to_js_string (_hasticDatasourceURL this) ->
      recorded u w' = recorded u w).
Proof.
  unfold _updateHasticUrlStatus, recorded, world_after, bind, get_this, get_world,
    modify_world, emit, ret.
  destruct w as [reg ws ev co rq ck]; simpl.
  destruct reg as [r|]; simpl.
  - destruct (r !! to_js_string (_hasticDatasourceURL this)) as [old|] eqn:L; simpl;
      repeat case_bool_decide; simpl; (split; [discriminate|]); intros Hne;
      try reflexivity; rewrite lookup_insert_ne by congruence; reflexivity.
  - rewrite lookup_empty. simpl. split; [discriminate|]. intros Hne.
    rewrite lookup_insert_ne by congruence. apply lookup_empty.
Qed.

(** What an alert call does to the map of the registry. *)
Lemma displayConnectionAlert_registry (st : HasticDatasourceAvailability)
    (msg : list string) (this : AnalyticService) (w : World) (u : maybe_string) :
  to_js_string u <> to_js_string (_hasticDatasourceURL this) ->
  let w' := world_after (_displayConnectionAlert st msg (this, w)) in
  recorded u w' = recorded u w
  /\ recorded (_hasticDatasourceURL this) w' = Some st
  /\ hasticDatasourcesAvailability w' <> None.
Proof.
  intros Hne w'.
  destruct (updateHasticUrlStatus_world st (alerted st msg this) w u) as (Hsome & Hother).
  destruct (updateHasticUrlStatus_run st (alerted st msg this) w)
    as (w1 & Hrun & Hrec & _).
  assert (Hw : hasticDatasourcesAvailability w' = hasticDatasourcesAvailability w1).
  { subst w'. unfold _displayConnectionAlert, bind, modify_this, world_after. simpl.
    change (set_status (set_message (join "<br /> " msg))
              (set_status (set_availability st) this)) with (alerted st msg this).
    rewrite Hrun. simpl.
    destruct (negb (bool_decide (recorded (_hasticDatasourceURL this) w = Some st)));
      reflexivity. }
  rewrite Hrun in Hsome, Hother. unfold world_after in Hsome, Hother.
  cbn [fst snd] in Hsome, Hother.
  unfold recorded in *. rewrite Hw. repeat split; auto.
Qed.

(** X22: for an endpoint other than [__proto__] and [hasOwnProperty]
    and a registry without an own [hasOwnProperty], an alert call touches
    the registry entry of the instance's own endpoint only: the entry of
    every other endpoint is what it was, the own entry holds the new
    value, and afterwards the registry exists, created by the call if
    [window] had none, and still has no own [hasOwnProperty]. *)
Theorem alert_call_leaves_other_endpoints (st : HasticDatasourceAvailability)
    (msg : list string) (this : AnalyticService) (w : World) (u : maybe_string) :
  plain_endpoint (_hasticDatasourceURL this) ->
  plain_registry w ->
  to_js_string u <> to_js_string (_hasticDatasourceURL this) ->
  let w' := world_after (_displayConnectionAlert_plain_object st msg (this, w)) in
  recorded u w' = recorded u w
  /\ recorded (_hasticDatasourceURL this) w' = Some st
  /\ hasticDatasourcesAvailability w' <> None
  /\ plain_registry w'.
Proof.
  intros Hp Hplain Hne w'. subst w'.
  rewrite (displayConnectionAlert_plain_object_agrees st msg this w (proj1 Hp) Hplain).
  destruct (displayConnectionAlert_registry st msg this w u Hne) as (H1 & H2 & H3).
  split; [exact H1|]. split; [exact H2|]. split; [exact H3|].
  apply plain_registry_kept; assumption.
Qed.

Lemma alert_call_leaves_other_endpoints_witness :
  let this := service_at (Str "http://other:8000") (failing_transport abort_error) in
  recorded example_url
    (world_after (_displayConnectionAlert_plain_object AVAILABLE [ "up" ]
                    (this, world_known_down)))
  = Some NOT_AVAILABLE.
Proof.
  intros this.
  refine (eq_trans (proj1 (alert_call_leaves_other_endpoints AVAILABLE [ "up" ] this
                             world_known_down example_url _ _ _)) _).
  - split; vm_compute; discriminate.
  - reflexivity.
  - vm_compute. discriminate.
  - reflexivity.
Defined.

(** X23: for an endpoint other than [__proto__] and [hasOwnProperty]
    and a registry without an own [hasOwnProperty],
    [hastic-datasource-status-changed] is emitted, with the endpoint as
    its payload, exactly when an alert call overwrites an existing
    registry entry with a different value; the first recording for an
    endpoint notifies the user but does not emit it. *)
Theorem status_changed_event_on_overwrite (st : HasticDatasourceAvailability)
    (msg : list string) (this : AnalyticService) (w : World) :
  plain_endpoint (_hasticDatasourceURL this) ->
  plain_registry w ->
  status_changes
    (emitted w (world_after (_displayConnectionAlert_plain_object st msg (this, w))))
  = match recorded (_hasticDatasourceURL this) w with
    | Some old =>
        if bool_decide (old = st) then []
        else [ status_changed_event (_hasticDatasourceURL this) ]
    | None => []
    end.
Proof.
  intros Hp Hplain.
  rewrite (displayConnectionAlert_plain_object_agrees st msg this w (proj1 Hp) Hplain).
  destruct (displayConnectionAlert_run st msg this w)
    as (w' & Hrun & _ & _ & _ & _ & _ & Hev).
  rewrite Hrun. unfold world_after. cbn [fst snd].
  rewrite (emitted_app _ _ _ Hev). unfold alert_events.
  destruct (recorded (_hasticDatasourceURL this) w) as [old|].
  - case_bool_decide; [reflexivity|]. destruct st; reflexivity.
  - destruct st; reflexivity.
Qed.

Lemma status_changed_event_on_overwrite_witness :
  let this := service_at example_url (failing_transport abort_error) in
  status_changes
    (emitted world_known_down
       (world_after (_displayConnectionAlert_plain_object AVAILABLE [ "up" ]
                       (this, world_known_down))))
  = [ status_changed_event example_url ].
Proof.
  intros this.
  refine (eq_trans (status_changed_event_on_overwrite AVAILABLE [ "up" ] this
                      world_known_down _ _) _).
  - split; vm_compute; discriminate.
  - reflexivity.
  - reflexivity.
Defined.

(** ** The status text of a transport error *)




(** ** Failure, then recovery *)

(** The events of a check that ends in an alert call. *)
Lemma check_with_alert_events
    (isHasticServerResponse isSupportedServerVersion : jsval -> bool)
    (SUPPORTED_SERVER_VERSION : string) (this : AnalyticService) (w : World)
    (st : HasticDatasourceAvailability) (msg : list string) (b : bool) :
  (forall w2,
     _displayConnectionAlert st msg
       (set_isUp true (set_status (set_testing true) this),
        push_request (build_request this "GET" "/" JUndefined) w)
     = (Normal tt,
        (alerted st msg (set_isUp true (set_status (set_testing true) this)), w2)) ->
     _isDatasourceAvailable isHasticServerResponse isSupportedServerVersion
       SUPPORTED_SERVER_VERSION (set_status (set_testing true) this, w)
     = (Normal b,
        (alerted st msg (set_isUp true (set_status (set_testing true) this)), w2))) ->
  emitted w (world_after (checkDatasourceAvailability isHasticServerResponse
                            isSupportedServerVersion SUPPORTED_SERVER_VERSION (this, w)))
  = alert_events st msg (_hasticDatasourceURL this) w.
Proof.
  intros Hprobe.
  destruct (displayConnectionAlert_run st msg
              (set_isUp true (set_status (set_testing true) this))
              (push_request (build_request this "GET" "/" JUndefined) w))
    as (w2 & Hrun & _ & _ & _ & _ & _ & Hev).
  specialize (Hprobe w2 Hrun).
  destruct (checkDatasourceAvailability_run isHasticServerResponse isSupportedServerVersion
              SUPPORTED_SERVER_VERSION this w) as (b0 & this' & w' & Hp & Hcheck).
  rewrite Hprobe in Hp. inversion Hp; subst.
  rewrite Hcheck. unfold world_after. cbn [fst snd].
  change (appEvents w'
          = alert_events st msg (_hasticDatasourceURL this) w ++ appEvents w) in Hev.
  apply (emitted_app w w' _ Hev).
Qed.

(** A dispatcher call of a plain endpoint keeps a plain registry
    plain. *)
Lemma analyticRequest_keeps_plain_registry (method url : string) (data : jsval)
    (this : AnalyticService) (w : World) :
  plain_endpoint (_hasticDatasourceURL this) ->
  plain_registry w ->
  plain_registry (world_after (_analyticRequest method url data (this, w))).
Proof.
  intros Hp Hplain.
  destruct (http this (length (requests w)) (build_request this method url data))
    as [d|error] eqn:H.
  - rewrite (analyticRequest_answered method url data this w d H). exact Hplain.
  - destruct (connectivity_failure error) eqn:Hc.
    + set (w1 := if negb (String.eqb (statusText error) "")
                 then set_window_status
                        (window_status w +:+ " (" +:+ statusText error +:+ ")")
                        (push_request (build_request this method url data) w)
                 else push_request (build_request this method url data) w).
      assert (Hplain1 : plain_registry w1)
        by (subst w1; destruct (negb _); exact Hplain).
      destruct (displayConnectionAlert_run NOT_AVAILABLE
                  (connectivity_message error this) this w1) as (w2 & Hrun & _).
      assert (Hstep :
        (if timeout_status error
         then _displayConnectionTimeoutAlert (pretty (status error))
         else _displayNoConnectionAlert (pretty (status error))) (this, w1)
        = (Normal tt,
           (alerted NOT_AVAILABLE (connectivity_message error this) this, w2))).
      { rewrite <- Hrun. unfold connectivity_message.
        destruct (timeout_status error); reflexivity. }
      assert (Hw : world_after (_analyticRequest method url data (this, w)) = w2).
      { unfold _analyticRequest, bind, get_this, get_world, modify_world,
          modify_this, ret, throw, world_after. simpl. rewrite H, Hc.
        subst w1. destruct (negb (String.eqb (statusText error) "")); simpl;
          rewrite Hstep; reflexivity. }
      rewrite Hw.
      pose proof (plain_registry_kept NOT_AVAILABLE (connectivity_message error this)
                    this w1 Hp Hplain1) as Hk.
      rewrite Hrun in Hk. exact Hk.
    + rewrite (analyticRequest_reachable method url data this w error H Hc).
      exact Hplain.
Qed.

(** X25: recovery is always announced. For an endpoint other than
    [__proto__] and [hasOwnProperty] and a registry without an own
    [hasOwnProperty] (it still has none after the failure): when a request
    has failed as a connectivity failure and the next availability check
    finds a recognised server of a supported version, the check answers
    true, sets [isUp] again, and emits both the success notification and
    [hastic-datasource-status-changed], whatever the registry held before
    the failure. *)
Theorem recovery_is_announced
    (isHasticServerResponse isSupportedServerVersion : jsval -> bool)
    (SUPPORTED_SERVER_VERSION : string) (method url : string) (data d : jsval)
    (this : AnalyticService) (w : World) (error : http_error) :
  plain_endpoint (_hasticDatasourceURL this) ->
  plain_registry w ->
  url_missing (_hasticDatasourceURL this) = false ->
  http this (length (requests w)) (build_request this method url data) = Rejected error ->
  connectivity_failure error = true ->
  let failed := _analyticRequest method url data (this, w) in
  fst (get "/" JUndefined (this_after failed, world_after failed)) = Normal d ->
  isHasticServerResponse d = true ->
  isSupportedServerVersion d = true ->
  let r := checkDatasourceAvailability isHasticServerResponse isSupportedServerVersion
             SUPPORTED_SERVER_VERSION (this_after failed, world_after failed) in
  plain_registry (world_after failed)
  /\ _isUp (this_after failed) = false
  /\ fst r = Normal true
  /\ _isUp (this_after r) = true
  /\ emitted (world_after failed) (world_after r)
     = [ notification AVAILABLE (connected_message this);
         status_changed_event (_hasticDatasourceURL this) ].
Proof.
  intros Hp Hplain Hcfg H Hc failed.
  pose proof (analyticRequest_keeps_plain_registry method url data this w Hp Hplain)
    as Hkept.
  fold failed in Hkept. revert Hkept.
  destruct (analyticRequest_unreachable method url data this w error H Hc)
    as (w1 & Hrun & Hrec & _).
  subst failed. rewrite Hrun. unfold this_after at 1 2 3, world_after at 1 2 3 4 5.
  cbn [fst snd].
  set (this1 := set_isUp false
                  (alerted NOT_AVAILABLE (connectivity_message error this) this)).
  intros Hkept Hget Hh Hs.
  assert (Hcfg1 : url_missing (_hasticDatasourceURL this1) = false) by exact Hcfg.
  pose proof (check_recognised_and_supported isHasticServerResponse
                isSupportedServerVersion SUPPORTED_SERVER_VERSION this1 w1 d
                Hcfg1 Hget Hh Hs) as Hprobe.
  destruct (check_with_alert isHasticServerResponse isSupportedServerVersion
              SUPPORTED_SERVER_VERSION this1 w1 AVAILABLE (connected_message this1) true
              Hprobe) as (Hr & Hup & _).
  pose proof (check_with_alert_events isHasticServerResponse isSupportedServerVersion
                SUPPORTED_SERVER_VERSION this1 w1 AVAILABLE (connected_message this1) true
                Hprobe) as Hev.
  split; [exact Hkept|].
  split; [reflexivity|]. split; [exact Hr|]. split; [exact Hup|].
  refine (eq_trans Hev _). unfold alert_events.
  change (_hasticDatasourceURL this1) with (_hasticDatasourceURL this).
  rewrite Hrec. reflexivity.
Qed.

Lemma recovery_is_announced_witness :
  let this := service_at example_url
                (recovering_transport abort_error sample_server_response) in
  let failed := _analyticRequest "GET" "/segments" JUndefined (this, fresh_world) in
  fst (checkDatasourceAvailability sample_isHasticServerResponse
         sample_isSupportedServerVersion "0.3.6"
         (this_after failed, world_after failed))
  = Normal true.
Proof.
  intros this failed.
  assert (Hp : plain_endpoint (_hasticDatasourceURL this))
    by (split; vm_compute; discriminate).
  destruct (recovery_is_announced sample_isHasticServerResponse
              sample_isSupportedServerVersion "0.3.6" "GET" "/segments" JUndefined
              sample_server_response this fresh_world abort_error
              Hp eq_refl eq_refl eq_refl eq_refl eq_refl eq_refl eq_refl)
    as (_ & _ & Hr & _).
  exact Hr.
Defined.
